(** * Bitcoin technical indicators: a shallow embedding of [BitcoinIndicators]

    The JavaScript module computes RSI, EMA, MACD and Bollinger Bands over a
    list of closing prices, scores them into a "bull market" phase and bundles
    everything into one snapshot object.

    Numbers.  A JavaScript Number is an IEEE-754 binary64 value.  The
    functions below are written once, over an interface [Arith] of the
    operations the source uses, and the interface is instantiated twice:
    - [float_arith]: Rocq's primitive binary64 floats, the arithmetic the
      program really runs on (round to nearest even, NaN, infinities);
    - [real_arith]: the real numbers, the same code read in exact
      arithmetic, for the properties that rounding destroys.

    Integers.  A period is a natural number, a score an integer; both are
    small integers in the source, exact in binary64.

    Absence and failure.  A calculator returns [null] on a short input
    ([option], [None] = null).  [Array.prototype.reduce] without an initial
    value throws a TypeError on an empty array, and so does a property read on
    [null]; both are modelled by the [completion] monad. *)

From Stdlib Require Import String.
From Stdlib Require Import List ZArith Bool Arith Lia.
From Stdlib Require Import Floats.
From Stdlib Require Import Reals Lra.
Import ListNotations.

Set Implicit Arguments.

(** ** Completions: normal return or a thrown exception *)

Module JS.

Inductive error : Type := TypeError.

Inductive completion (A : Type) : Type :=
| Return (a : A)
| Throw (e : error).

Arguments Return {A} a.
Arguments Throw {A} e.

Definition bind {A B : Type} (c : completion A) (k : A -> completion B)
  : completion B :=
  match c with
  | Return a => k a
  | Throw e => Throw e
  end.

(** A JavaScript value as far as the engine meets one: a Number, [null]
    (what a calculator returns on a short input) or [undefined] (an array
    read out of range). *)
Inductive value (num : Type) : Type :=
| Undefined
| Null
| Num (x : num).

Arguments Undefined {num}.
Arguments Null {num}.
Arguments Num {num} x.

(** A nullable number seen as a value. *)
Definition nullable {num : Type} (o : option num) : value num :=
  match o with
  | Some x => Num x
  | None => Null
  end.

End JS.

Import JS.

Notation "x <- c ;; k" := (JS.bind c (fun x => k))
  (at level 61, c at next level, right associativity).

(** ** The arithmetic of a JavaScript Number *)

Class Arith (num : Type) : Type := {
  num_of_Z : Z -> num;              (* an integer as a Number *)
  num_nan : num;                    (* ToNumber(undefined) *)
  num_add : num -> num -> num;
  num_sub : num -> num -> num;
  num_mul : num -> num -> num;
  num_div : num -> num -> num;
  num_neg : num -> num;
  num_sqrt : num -> num;            (* Math.sqrt *)
  num_lt : num -> num -> bool;      (* x < y *)
  num_le : num -> num -> bool;      (* x <= y *)
  num_eq : num -> num -> bool       (* x === y on Numbers *)
}.

Arguments num_of_Z {num _} _%_Z_scope.

Declare Scope num_scope.
Delimit Scope num_scope with num.

Notation "x + y" := (num_add x y) : num_scope.
Notation "x - y" := (num_sub x y) : num_scope.
Notation "x * y" := (num_mul x y) : num_scope.
Notation "x / y" := (num_div x y) : num_scope.
Notation "- x" := (num_neg x) : num_scope.
Notation "x <? y" := (num_lt x y) : num_scope.
Notation "x >? y" := (num_lt y x) (at level 70) : num_scope.
Notation "x <=? y" := (num_le x y) : num_scope.
Notation "x >=? y" := (num_le y x) (at level 70) : num_scope.
Notation "x === y" := (num_eq x y) (at level 70) : num_scope.

(** [#z] is an integer literal, [##n] an integer variable such as a period. *)
Definition num_of_nat {num : Type} {A : Arith num} (n : nat) : num :=
  num_of_Z (Z.of_nat n).

Notation "# z" := (num_of_Z z%Z)
  (at level 9, z at level 9, format "# z") : num_scope.
Notation "## n" := (num_of_nat n%nat)
  (at level 9, n at level 9, format "## n") : num_scope.

(** [for (let i = lo; i < hi; i++) s = body(i, s)] *)
Definition for_range {S : Type} (lo hi : nat) (body : nat -> S -> S) (s : S)
  : S :=
  fold_left (fun acc i => body i acc) (seq lo (hi - lo)) s.

(** ** Result records *)

Record Candle (num : Type) : Type := mkCandle {
  timestamp : Z;
  open : num;
  high : num;
  low : num;
  close : num;
  volume : num
}.

Record MacdResult (num : Type) : Type := mkMacd {
  macd : num;
  signal : num;
  histogram : num
}.

Record BollingerBands (num : Type) : Type := mkBollinger {
  upper : num;
  middle : num;
  lower : num
}.

Record BullMarket : Type := mkBullMarket {
  score : Z;
  phase : string;
  phaseColor : string;
  signals : list string
}.

Record SnapshotRsi (num : Type) : Type := mkSnapshotRsi {
  rsi_value : option num;
  rsi_period : nat;
  rsi_timeframe : string
}.

Record SnapshotMacd (num : Type) : Type := mkSnapshotMacd {
  macd_macd : num;
  macd_signal : num;
  macd_histogram : num;
  macd_periods : string;
  macd_timeframe : string
}.

Record SnapshotBollinger (num : Type) : Type := mkSnapshotBollinger {
  bollinger_upper : num;
  bollinger_middle : num;
  bollinger_lower : num;
  bollinger_spread : num;
  bollinger_spreadCategory : string;
  bollinger_period : nat;
  bollinger_timeframe : string
}.

Record SnapshotEma (num : Type) : Type := mkSnapshotEma {
  ema_ema50 : option num;
  ema_ema200 : option num;
  ema_trend : string;
  ema_timeframe : string
}.

Record Snapshot (num : Type) : Type := mkSnapshot {
  snap_currentPrice : value num;
  snap_timestamp : Z;
  snap_rsi : SnapshotRsi num;
  snap_macd : SnapshotMacd num;
  snap_bollinger : SnapshotBollinger num;
  snap_ema : SnapshotEma num;
  snap_bullMarket : BullMarket
}.

(** ** The string literals of the source

    The source labels phases and signals with French display strings; the
    names on the left are the language-neutral tags under which the
    specification speaks of them. *)

Module Tag.
Local Open Scope string_scope.

Definition RsiHealthy : string := "RSI sain".
Definition RsiOverbought : string := "RSI surachat".
Definition RsiWeak : string := "RSI faible".
Definition MacdPositive : string := "MACD positif".
Definition MacdNegative : string := "MACD négatif".
Definition GoldenCross : string := "Golden Cross".
Definition DeathCross : string := "Death Cross".
Definition PriceAboveEma50 : string := "Prix > EMA50".
Definition PriceAboveEma200 : string := "Prix > EMA200".

Definition StrongBull : string := "Bull Market Fort 🚀".
Definition ModerateBull : string := "Bull Market Modéré 📈".
Definition NeutralConsolidation : string := "Neutre / Consolidation ⚖️".
Definition ModerateBear : string := "Bear Market Modéré 📉".
Definition StrongBear : string := "Bear Market Fort 🔻".

Definition up : string := "up".
Definition neutral : string := "neutral".
Definition down : string := "down".

Definition HighVolatility : string := "Élevé (Forte volatilité)".
Definition LowConsolidation : string := "Faible (Consolidation)".
Definition NormalVolatility : string := "Moyen (Volatilité normale)".

Definition TrendBullish : string := "Haussier (Golden Cross)".
Definition TrendBearish : string := "Baissier (Death Cross)".
Definition TrendNeutral : string := "Neutre".

Definition Daily : string := "Daily".
Definition Periods_12_26_9 : string := "12/26/9".
End Tag.

(** The "Determine phase" block of [calculateBullMarketIndicator]: the pair
    (phase, phaseColor) picked by the first threshold the score reaches. *)
Definition determinePhase (score : Z) : string * string :=
  if (score >=? 80)%Z then (Tag.StrongBull, Tag.up)
  else if (score >=? 60)%Z then (Tag.ModerateBull, Tag.up)
  else if (score >=? 40)%Z then (Tag.NeutralConsolidation, Tag.neutral)
  else if (score >=? 20)%Z then (Tag.ModerateBear, Tag.down)
  else (Tag.StrongBear, Tag.down).

(** ** The engine, over any arithmetic *)

Section Engine.

Context {num : Type} {A : Arith num}.

Local Open Scope num_scope.

(** [closes[i]]: an out-of-range read is [undefined], NaN in arithmetic. *)
Definition get (closes : list num) (i : nat) : num := nth i closes num_nan.

(** [ToNumber]: what a relational operator makes of its operand. *)
Definition toNumber (v : value num) : num :=
  match v with
  | Undefined => num_nan
  | Null => #0
  | Num x => x
  end.

(** [a.reduce((a, b) => a + b)]: a left fold seeded with the first element;
    TypeError on the empty array. *)
Definition reduce_add (a : list num) : completion num :=
  match a with
  | [] => Throw TypeError
  | x :: rest => Return (fold_left num_add rest x)
  end.

(** [a.slice(0, n)] *)
Definition slice_to (a : list num) (n : nat) : list num := firstn n a.

(** [a.slice(-n)]: the last [n] elements; [-0] is [0], so [n = 0] keeps the
    whole array, and so does an [n] beyond the length. *)
Definition slice_last (a : list num) (n : nat) : list num :=
  match n with
  | O => a
  | _ => skipn (length a - n)%nat a
  end.

(** [Math.pow(x, 2)]: the square, as the product. *)
Definition pow2 (x : num) : num := x * x.

(** *** calculateRSI *)

Definition rsi_seed_step (closes : list num) (i : nat) (acc : num * num)
  : num * num :=
  let '(gains, losses) := acc in
  let change := get closes i - get closes (i - 1)%nat in
  if change >? #0 then (gains + change, losses)
  else (gains, losses - change).

Definition rsi_smooth_step (closes : list num) (period : nat) (i : nat)
  (acc : num * num) : num * num :=
  let '(avgGain, avgLoss) := acc in
  let change := get closes i - get closes (i - 1)%nat in
  let gain := if change >? #0 then change else #0 in
  let loss := if change <? #0 then - change else #0 in
  ((avgGain * (##period - #1) + gain) / ##period,
   (avgLoss * (##period - #1) + loss) / ##period).

(** The two running averages just before the final formula. *)
Definition rsi_averages (closes : list num) (period : nat) : num * num :=
  let '(gains, losses) :=
    for_range 1 (period + 1) (rsi_seed_step closes) (#0, #0) in
  let avgGain := gains / ##period in
  let avgLoss := losses / ##period in
  for_range (period + 1) (length closes) (rsi_smooth_step closes period)
    (avgGain, avgLoss).

Definition calculateRSI (closes : list num) (period : nat) : option num :=
  if (length closes <? period + 1)%nat then None
  else
    let '(avgGain, avgLoss) := rsi_averages closes period in
    if avgLoss === #0 then Some #100
    else Some (#100 - #100 / (#1 + avgGain / avgLoss)).

(** *** calculateEMA *)

Definition ema_step (closes : list num) (k : num) (i : nat) (ema : num) : num :=
  get closes i * k + ema * (#1 - k).

Definition calculateEMA (closes : list num) (period : nat)
  : completion (option num) :=
  if (length closes <? period)%nat then Return None
  else
    let k := #2 / (##period + #1) in
    total <- reduce_add (slice_to closes period) ;;
    let ema := total / ##period in
    Return (Some (for_range period (length closes) (ema_step closes k) ema)).

(** *** calculateMACD *)

Definition macd_step (closes : list num) (fastK slowK : num) (i : nat)
  (acc : num * num * list num) : num * num * list num :=
  let '(fastEMA, slowEMA, macdLine) := acc in
  let fastEMA := get closes i * fastK + fastEMA * (#1 - fastK) in
  let slowEMA := get closes i * slowK + slowEMA * (#1 - slowK) in
  (fastEMA, slowEMA, macdLine ++ [fastEMA - slowEMA]).

Definition calculateMACD (closes : list num)
  (fastPeriod slowPeriod signalPeriod : nat)
  : completion (option (MacdResult num)) :=
  if (length closes <? slowPeriod + signalPeriod)%nat then Return None
  else
    let fastK := #2 / (##fastPeriod + #1) in
    let slowK := #2 / (##slowPeriod + #1) in
    fastTotal <- reduce_add (slice_to closes fastPeriod) ;;
    let fastEMA := fastTotal / ##fastPeriod in
    slowTotal <- reduce_add (slice_to closes slowPeriod) ;;
    let slowEMA := slowTotal / ##slowPeriod in
    let '(_, _, macdLine) :=
      for_range (Nat.max fastPeriod slowPeriod) (length closes)
        (macd_step closes fastK slowK) (fastEMA, slowEMA, []) in
    let signalK := #2 / (##signalPeriod + #1) in
    signalTotal <- reduce_add (slice_to macdLine signalPeriod) ;;
    let signalEMA :=
      for_range signalPeriod (length macdLine) (ema_step macdLine signalK)
        (signalTotal / ##signalPeriod) in
    let currentMACD := get macdLine (length macdLine - 1)%nat in
    Return (Some {| macd := currentMACD;
                    signal := signalEMA;
                    histogram := currentMACD - signalEMA |}).

(** *** calculateBollingerBands *)

Definition calculateBollingerBands (closes : list num) (period : nat)
  (stdDev : num) : completion (option (BollingerBands num)) :=
  if (length closes <? period)%nat then Return None
  else
    let recentCloses := slice_last closes period in
    total <- reduce_add recentCloses ;;
    let sma := total / ##period in
    let squaredDiffs := map (fun close => pow2 (close - sma)) recentCloses in
    squares <- reduce_add squaredDiffs ;;
    let variance := squares / ##period in
    let standardDeviation := num_sqrt variance in
    Return (Some {| upper := sma + standardDeviation * stdDev;
                    middle := sma;
                    lower := sma - standardDeviation * stdDev |}).

(** *** calculateBullMarketIndicator *)

(** [macd.histogram]: a property read, TypeError on [null]. *)
Definition read_histogram (m : option (MacdResult num)) : completion num :=
  match m with
  | Some r => Return (histogram r)
  | None => Throw TypeError
  end.

Definition calculateBullMarketIndicator (rsi : value num)
  (macdResult : option (MacdResult num))
  (ema50 ema200 currentPrice : value num)
  : completion BullMarket :=
  let score := 0%Z in
  let signals := @nil string in
  (* RSI between 40-70 (healthy uptrend) *)
  let '(score, signals) :=
    if (toNumber rsi >=? #40) && (toNumber rsi <=? #70)
    then ((score + 20)%Z, signals ++ [Tag.RsiHealthy])
    else if toNumber rsi >? #70
         then (score, signals ++ [Tag.RsiOverbought])
         else (score, signals ++ [Tag.RsiWeak]) in
  (* MACD histogram positive *)
  h <- read_histogram macdResult ;;
  let '(score, signals) :=
    if h >? #0
    then ((score + 25)%Z, signals ++ [Tag.MacdPositive])
    else (score, signals ++ [Tag.MacdNegative]) in
  (* Golden Cross *)
  let '(score, signals) :=
    if toNumber ema50 >? toNumber ema200
    then ((score + 30)%Z, signals ++ [Tag.GoldenCross])
    else (score, signals ++ [Tag.DeathCross]) in
  (* Price above EMA50 *)
  let '(score, signals) :=
    if toNumber currentPrice >? toNumber ema50
    then ((score + 15)%Z, signals ++ [Tag.PriceAboveEma50])
    else (score, signals) in
  (* Price above EMA200 *)
  let '(score, signals) :=
    if toNumber currentPrice >? toNumber ema200
    then ((score + 10)%Z, signals ++ [Tag.PriceAboveEma200])
    else (score, signals) in
  (* Determine phase *)
  let '(phase, phaseColor) := determinePhase score in
  Return {| score := score; phase := phase; phaseColor := phaseColor;
            signals := signals |}.

(** *** getAllIndicators

    The asynchronous fetch is the caller's: [klines] is the batch it
    resolved to and [now] the value [Date.now()] returns.  The source has no
    path that returns [null]; the result is nullable only so that "the
    snapshot is absent" can be said of it. *)

(** [bollinger.upper], [bollinger.lower], ...: property reads on the
    Bollinger result, TypeError on [null]. *)
Definition read_bollinger (b : option (BollingerBands num))
  : completion (BollingerBands num) :=
  match b with
  | Some r => Return r
  | None => Throw TypeError
  end.

Definition read_macd (m : option (MacdResult num))
  : completion (MacdResult num) :=
  match m with
  | Some r => Return r
  | None => Throw TypeError
  end.

(** [closes[closes.length - 1]] *)
Definition last_close (closes : list num) : value num :=
  match closes with
  | [] => Undefined
  | _ => Num (get closes (length closes - 1)%nat)
  end.

Definition getAllIndicators (klines : list (Candle num)) (now : Z)
  : completion (option (Snapshot num)) :=
  let closes := map (@close num) klines in
  let currentPrice := last_close closes in
  let rsi := calculateRSI closes 14 in
  macdResult <- calculateMACD closes 12 26 9 ;;
  bollinger <- calculateBollingerBands closes 20 #2 ;;
  ema50 <- calculateEMA closes 50 ;;
  ema200 <- calculateEMA closes 200 ;;
  bullMarket <- calculateBullMarketIndicator (nullable rsi) macdResult
                  (nullable ema50) (nullable ema200) currentPrice ;;
  (* Calculate Bollinger spread category *)
  b <- read_bollinger bollinger ;;
  let spread := upper b - lower b in
  let spreadCategory :=
    if spread >? #20000 then Tag.HighVolatility
    else if spread <? #10000 then Tag.LowConsolidation
    else Tag.NormalVolatility in
  (* Determine EMA trend *)
  let emaTrend :=
    if toNumber (nullable ema50) >? toNumber (nullable ema200)
    then Tag.TrendBullish
    else if toNumber (nullable ema50) <? toNumber (nullable ema200)
         then Tag.TrendBearish
         else Tag.TrendNeutral in
  m <- read_macd macdResult ;;
  Return (Some
    {| snap_currentPrice := currentPrice;
       snap_timestamp := now;
       snap_rsi := {| rsi_value := rsi; rsi_period := 14;
                      rsi_timeframe := Tag.Daily |};
       snap_macd := {| macd_macd := macd m; macd_signal := signal m;
                       macd_histogram := histogram m;
                       macd_periods := Tag.Periods_12_26_9;
                       macd_timeframe := Tag.Daily |};
       snap_bollinger := {| bollinger_upper := upper b;
                            bollinger_middle := middle b;
                            bollinger_lower := lower b;
                            bollinger_spread := spread;
                            bollinger_spreadCategory := spreadCategory;
                            bollinger_period := 20;
                            bollinger_timeframe := Tag.Daily |};
       snap_ema := {| ema_ema50 := ema50; ema_ema200 := ema200;
                      ema_trend := emaTrend; ema_timeframe := Tag.Daily |};
       snap_bullMarket := bullMarket |}).

End Engine.

(** ** The two arithmetics *)

(** IEEE-754 binary64, as a JavaScript engine computes.  A non-negative integer
    enters through [of_uint63], exact below 2^53; the source has no negative
    integer literal. *)
#[export] Instance float_arith : Arith float := {
  num_of_Z z := PrimFloat.of_uint63 (Uint63.of_Z z);
  num_nan := PrimFloat.nan;
  num_add := PrimFloat.add;
  num_sub := PrimFloat.sub;
  num_mul := PrimFloat.mul;
  num_div := PrimFloat.div;
  num_neg := PrimFloat.opp;
  num_sqrt := PrimFloat.sqrt;
  num_lt := PrimFloat.ltb;
  num_le := PrimFloat.leb;
  num_eq := PrimFloat.eqb
}.

(** Exact arithmetic.  The reals have no NaN; [num_nan] is only what an
    out-of-range read would yield, and the guarded loops never read one. *)
#[export] Instance real_arith : Arith R := {
  num_of_Z := IZR;
  num_nan := 0%R;
  num_add := Rplus;
  num_sub := Rminus;
  num_mul := Rmult;
  num_div := Rdiv;
  num_neg := Ropp;
  num_sqrt := R_sqrt.sqrt;
  num_lt x y := if Rlt_dec x y then true else false;
  num_le x y := if Rle_dec x y then true else false;
  num_eq x y := if Req_dec_T x y then true else false
}.

(** * The rendering layer: values computed for the cards

    The page controller turns a snapshot into HTML cards.  The HTML templates
    and the formatting of numbers ([toFixed], [toLocaleString]) are not
    modelled; what is modelled is every value the controller computes by a
    test or by a string operation before it fills a template. *)

Module Str.

(** The space character, code 32. *)
Definition space : Ascii.ascii := Ascii.ascii_of_nat 32.

(** [s.split(' ')]: the pieces between the spaces; never empty. *)
Fixpoint split_space (s : string) : list string :=
  match s with
  | EmptyString => [EmptyString]
  | String c rest =>
      match split_space rest with
      | tok :: toks =>
          if Ascii.eqb c space then EmptyString :: tok :: toks
          else String c tok :: toks
      | [] => [String c EmptyString]
      end
  end.

(** [s.includes(sub)] *)
Fixpoint includes (s sub : string) : bool :=
  String.prefix sub s
  || match s with
     | EmptyString => false
     | String _ rest => includes rest sub
     end.

(** [a[i]] inside a string concatenation: a missing element is [undefined]
    and concatenates as the text "undefined". *)
Definition at_index (a : list string) (i : nat) : string :=
  nth i a "undefined"%string.

(** [a.pop()] on a freshly split string. *)
Definition pop (a : list string) : string := last a EmptyString.

End Str.

(** What [createBullCard] interpolates into its template (the price text
    apart). *)
Record BullCard (num : Type) : Type := mkBullCard {
  bc_score : Z;
  bc_phase : string;
  bc_emoji : string;
  bc_colorClass : string;
  bc_dashOffset : num
}.

Section Rendering.

Context {num : Type} {A : Arith num}.

Local Open Scope string_scope.
Local Open Scope num_scope.

(** [getRsiStatus] *)
Definition getRsiStatus (v : value num) : string :=
  if toNumber v >? #70 then "Overbought"
  else if toNumber v <? #30 then "Oversold"
  else "Neutral".

(** The locals of [createBullCard]: score, phase (the first two words of
    the phase text), emoji (its last word), colorClass and dashOffset. *)
Definition createBullCard (bullData : BullMarket) : BullCard num :=
  let maxDash := #628 in
  {| bc_score := score bullData;
     bc_phase :=
       Str.at_index (Str.split_space (phase bullData)) 0 ++ " "
       ++ Str.at_index (Str.split_space (phase bullData)) 1;
     bc_emoji := Str.pop (Str.split_space (phase bullData));
     bc_colorClass := phaseColor bullData;
     bc_dashOffset :=
       (maxDash - (num_of_Z (score bullData) / #100 * maxDash))%num |}.

(** The MACD card of [renderBentoGrid]: its status text and status class,
    [data.macd.histogram > 0 ? 'Positive' : 'Negative'] and
    [data.macd.histogram > 0 ? 'up' : 'down']. *)
Definition macdCardStatus (data : Snapshot num) : string * string :=
  (if macd_histogram (snap_macd data) >? #0 then "Positive" else "Negative",
   if macd_histogram (snap_macd data) >? #0 then "up" else "down").

(** The Bollinger card: its value, the first word of the spread category. *)
Definition bollingerCardValue (data : Snapshot num) : string :=
  Str.at_index
    (Str.split_space (bollinger_spreadCategory (snap_bollinger data))) 0.

(** The Trend card: its value and status class, decided by whether the trend
    label contains "Haussier". *)
Definition trendCard (data : Snapshot num) : string * string :=
  (if Str.includes (ema_trend (snap_ema data)) "Haussier"
   then "Bullish" else "Bearish",
   if Str.includes (ema_trend (snap_ema data)) "Haussier"
   then "up" else "down").

End Rendering.

(** * Vocabulary of the properties *)

(** ** The composite scorer *)

(** The weight the rule table gives to a tag: a pass tag carries the weight
    of its condition, every other tag none. *)
Definition tag_weight (t : string) : Z :=
  if String.eqb t Tag.RsiHealthy then 20
  else if String.eqb t Tag.MacdPositive then 25
  else if String.eqb t Tag.GoldenCross then 30
  else if String.eqb t Tag.PriceAboveEma50 then 15
  else if String.eqb t Tag.PriceAboveEma200 then 10
  else 0.

Definition sum_weights (tags : list string) : Z :=
  fold_right Z.add 0%Z (map tag_weight tags).

(** The threshold table of the phase classification, as disjoint ranges. *)
Definition phase_by_thresholds (s : Z) (p c : string) : Prop :=
  ((80 <= s)%Z -> p = Tag.StrongBull /\ c = Tag.up) /\
  ((60 <= s < 80)%Z -> p = Tag.ModerateBull /\ c = Tag.up) /\
  ((40 <= s < 60)%Z -> p = Tag.NeutralConsolidation /\ c = Tag.neutral) /\
  ((20 <= s < 40)%Z -> p = Tag.ModerateBear /\ c = Tag.down) /\
  ((s < 20)%Z -> p = Tag.StrongBear /\ c = Tag.down).

(** The shape of the signal list: one RSI tag, one MACD tag, one cross tag,
    then the price tags that passed, in source order. *)
Definition signals_shape (tags : list string) : Prop :=
  exists t1 t2 t3 rest,
    tags = t1 :: t2 :: t3 :: rest /\
    In t1 [Tag.RsiHealthy; Tag.RsiOverbought; Tag.RsiWeak] /\
    In t2 [Tag.MacdPositive; Tag.MacdNegative] /\
    In t3 [Tag.GoldenCross; Tag.DeathCross] /\
    In rest [ []; [Tag.PriceAboveEma50]; [Tag.PriceAboveEma200];
              [Tag.PriceAboveEma50; Tag.PriceAboveEma200] ].

(** How many tags of a list belong to a group. *)
Definition count_in (group tags : list string) : nat :=
  length (filter (fun t => existsb (String.eqb t) group) tags).

Definition rsi_tags : list string :=
  [Tag.RsiHealthy; Tag.RsiOverbought; Tag.RsiWeak].

Definition macd_tags : list string := [Tag.MacdPositive; Tag.MacdNegative].

Definition cross_tags : list string := [Tag.GoldenCross; Tag.DeathCross].

Definition price_tags : list string :=
  [Tag.PriceAboveEma50; Tag.PriceAboveEma200].

(** ** The aggregator *)

(** The snapshot with its timestamp replaced. *)
Definition set_timestamp {num : Type} (t : Z) (s : Snapshot num)
  : Snapshot num :=
  {| snap_currentPrice := snap_currentPrice s;
     snap_timestamp := t;
     snap_rsi := snap_rsi s;
     snap_macd := snap_macd s;
     snap_bollinger := snap_bollinger s;
     snap_ema := snap_ema s;
     snap_bullMarket := snap_bullMarket s |}.

(** The same outcome, any snapshot in it stamped with [t]. *)
Definition restamp {num : Type} (t : Z)
  (c : completion (option (Snapshot num)))
  : completion (option (Snapshot num)) :=
  match c with
  | Return (Some s) => Return (Some (set_timestamp t s))
  | Return None => Return None
  | Throw e => Throw e
  end.

(** A snapshot with every indicator present. *)
Definition fully_populated {num : Type} (s : Snapshot num) : Prop :=
  rsi_value (snap_rsi s) <> None /\
  ema_ema50 (snap_ema s) <> None /\
  ema_ema200 (snap_ema s) <> None.

(** ** Exact arithmetic *)

(** The mathematical notions the specification names. *)

Definition Rsum (l : list R) : R := fold_right Rplus 0%R l.

Definition mean (l : list R) : R := (Rsum l / INR (length l))%R.

(** Population variance: the divisor is the number of points. *)
Definition pop_variance (l : list R) : R :=
  (Rsum (map (fun x => (x - mean l) * (x - mean l)) l) / INR (length l))%R.

(** The last [n] elements. *)
Definition last_n (n : nat) (l : list R) : list R := skipn (length l - n) l.

Definition list_min (l : list R) : R :=
  match l with
  | [] => 0%R
  | x :: rest => fold_left Rmin rest x
  end.

Definition list_max (l : list R) : R :=
  match l with
  | [] => 0%R
  | x :: rest => fold_left Rmax rest x
  end.

(** Every consecutive delta before index [j] is non-negative. *)
Definition deltas_nonneg_upto (closes : list R) (j : nat) : Prop :=
  forall i, 1 <= i < j -> (nth (i - 1) closes 0 <= nth i closes 0)%R.

(** Every consecutive delta of the sequence is non-negative. *)
Definition deltas_nonneg (closes : list R) : Prop :=
  deltas_nonneg_upto closes (length closes).

(** After the seeding loop: both sums are non-negative and the loss sum is
    zero exactly when no delta so far was negative. *)
Definition seed_inv (closes : list R) (j : nat) (acc : R * R) : Prop :=
  (0 <= fst acc)%R /\ (0 <= snd acc)%R /\
  (snd acc = 0%R <-> deltas_nonneg_upto closes j).

(** During Wilder's smoothing: both averages stay non-negative, and for a
    period of at least 2 the loss average is zero exactly when no delta so
    far was negative. *)
Definition smooth_inv (closes : list R) (period : nat) (j : nat)
  (acc : R * R) : Prop :=
  (0 <= fst acc)%R /\ (0 <= snd acc)%R /\
  (2 <= period -> (snd acc = 0%R <-> deltas_nonneg_upto closes j)).

(** Every consecutive delta before index [j] is non-positive. *)
Definition deltas_nonpos_upto (closes : list R) (j : nat) : Prop :=
  forall i, 1 <= i < j -> (nth i closes 0 <= nth (i - 1) closes 0)%R.

(** Every consecutive delta of the sequence is non-positive. *)
Definition deltas_nonpos (closes : list R) : Prop :=
  deltas_nonpos_upto closes (length closes).

(** The gain side of the RSI loops: the running gain is non-negative and
    zero exactly when no delta so far was positive (from period 2 on, once
    smoothing has begun). *)
Definition seed_gain_inv (closes : list R) (j : nat) (acc : R * R) : Prop :=
  (0 <= fst acc)%R /\ (fst acc = 0%R <-> deltas_nonpos_upto closes j).

Definition smooth_gain_inv (closes : list R) (period : nat) (j : nat)
  (acc : R * R) : Prop :=
  (0 <= fst acc)%R /\
  (2 <= period -> (fst acc = 0%R <-> deltas_nonpos_upto closes j)).

(** ** Membership of a tag *)

(** [tags.includes(t)] *)
Definition has_tag (t : string) (tags : list string) : bool :=
  existsb (String.eqb t) tags.

(** ** Sample inputs in binary64 *)

(** A candle that closes at [c]. *)
Definition candle_closing_at (c : float) : Candle float :=
  {| timestamp := 0; open := c; high := c; low := c; close := c;
     volume := 0%float |}.

(** A batch of [n] candles closing at 1, 2, ..., n. *)
Definition rising_batch (n : nat) : list (Candle float) :=
  map (fun i => candle_closing_at (num_of_nat i)) (seq 1 n).

(** A fall followed by a rise. *)
Definition dip_and_rise : list float := [3; 1; 2]%float.


(** The same prices as reals. *)
Definition dip_and_rise_exact : list R := [3; 1; 2]%R.

(** Ten closes at the same price. *)
Definition flat_at_3 : list float := repeat 3%float 10.

(** Mean 2 and population variance 2, both exact. *)
Definition one_one_four : list float := [1; 1; 4]%float.

(** ** Sample inputs in exact arithmetic *)

Definition falling_exact : list R := [3; 2; 1]%R.

Definition flat_exact : list R := [5; 5; 5]%R.

(** A candle of the reals that closes at [c]. *)
Definition candle_closing_at_exact (c : R) : Candle R :=
  {| timestamp := 0; open := c; high := c; low := c; close := c;
     volume := 0%R |}.

(** A batch of [n] candles that all close at 1. *)
Definition steady_batch_exact (n : nat) : list (Candle R) :=
  repeat (candle_closing_at_exact 1) n.

(** ** Sample inputs for the cards *)

Definition bull_with_score (z : Z) : BullMarket :=
  {| score := z; phase := fst (determinePhase z);
     phaseColor := snd (determinePhase z); signals := [] |}.

(** * Properties *)

(** ** Loops *)

Section Loops.

Variable State : Type.

Lemma for_range_empty (lo hi : nat) (body : nat -> State -> State) (s : State) :
  hi <= lo -> for_range lo hi body s = s.
Proof.
  intros Hle. unfold for_range.
  replace (hi - lo) with 0 by lia. reflexivity.
Qed.

Lemma for_range_last (lo hi : nat) (body : nat -> State -> State) (s : State) :
  lo <= hi ->
  for_range lo (S hi) body s = body hi (for_range lo hi body s).
Proof.
  intros Hle. unfold for_range.
  replace (S hi - lo) with (S (hi - lo)) by lia.
  rewrite seq_S, fold_left_app. simpl.
  replace (lo + (hi - lo)) with hi by lia. reflexivity.
Qed.

(** An invariant indexed by the loop counter. *)
Lemma for_range_ind (P : nat -> State -> Prop) (lo hi : nat)
  (body : nat -> State -> State) (s : State) :
  lo <= hi ->
  P lo s ->
  (forall i acc, lo <= i < hi -> P i acc -> P (S i) (body i acc)) ->
  P hi (for_range lo hi body s).
Proof.
  intros Hle Hinit Hstep.
  induction hi as [|hi IH].
  - assert (lo = 0) by lia. subst lo.
    rewrite for_range_empty by lia. exact Hinit.
  - destruct (Nat.eq_dec lo (S hi)) as [->|Hne].
    + rewrite for_range_empty by lia. exact Hinit.
    + rewrite for_range_last by lia.
      apply Hstep; [lia|].
      apply IH; [lia|].
      intros i acc Hi. apply Hstep. lia.
Qed.

End Loops.

(** ** Facts that hold in every arithmetic *)

Section Generic.

Context {num : Type} {A : Arith num}.

Lemma reduce_add_returns (a : list num) :
  a <> [] -> exists total, reduce_add a = Return total.
Proof.
  destruct a as [|x rest]; [congruence|].
  intros _. eexists. reflexivity.
Qed.

Lemma slice_to_nonempty (a : list num) (n : nat) :
  1 <= n -> 1 <= length a -> slice_to a n <> [].
Proof.
  unfold slice_to. destruct n, a; simpl; intros; try lia; congruence.
Qed.

Lemma slice_last_length (a : list num) (n : nat) :
  1 <= n <= length a -> length (slice_last a n) = n.
Proof.
  intros Hn. unfold slice_last.
  destruct n as [|n]; [lia|].
  rewrite length_skipn. lia.
Qed.

Lemma length_nonempty (B : Type) (l : list B) : 1 <= length l -> l <> [].
Proof. destruct l; simpl; [lia|congruence]. Qed.

(** The MACD loop pushes one point per iteration. *)
Lemma macd_line_length (closes : list num) (fastK slowK : num)
  (lo hi : nat) (f s : num) (line : list num) :
  lo <= hi ->
  length (snd (for_range lo hi (macd_step closes fastK slowK) (f, s, line)))
  = length line + (hi - lo).
Proof.
  intros Hle.
  apply (for_range_ind
           (fun i acc => length (snd acc) = length line + (i - lo))
           (macd_step closes fastK slowK) (f, s, line) Hle).
  - simpl. lia.
  - intros i [[f' s'] line'] Hi IH. unfold macd_step. cbn [snd] in *.
    rewrite length_app. cbn [length]. lia.
Qed.

(** *** Absence of each calculator *)

Lemma calculateRSI_absent (closes : list num) (period : nat) :
  length closes < period + 1 -> calculateRSI closes period = None.
Proof.
  intros Hlt. unfold calculateRSI.
  apply Nat.ltb_lt in Hlt. rewrite Hlt. reflexivity.
Qed.

Lemma calculateRSI_present (closes : list num) (period : nat) :
  period + 1 <= length closes ->
  exists v, calculateRSI closes period = Some v.
Proof.
  intros Hge. unfold calculateRSI.
  apply Nat.ltb_ge in Hge. rewrite Hge.
  destruct (rsi_averages closes period) as [avgGain avgLoss].
  destruct (avgLoss === #0)%num; eexists; reflexivity.
Qed.

Lemma calculateEMA_absent (closes : list num) (period : nat) :
  length closes < period -> calculateEMA closes period = Return None.
Proof.
  intros Hlt. unfold calculateEMA.
  apply Nat.ltb_lt in Hlt. rewrite Hlt. reflexivity.
Qed.

Lemma calculateEMA_present (closes : list num) (period : nat) :
  1 <= period <= length closes ->
  exists v, calculateEMA closes period = Return (Some v).
Proof.
  intros [Hpos Hge]. unfold calculateEMA.
  apply Nat.ltb_ge in Hge as Hguard. rewrite Hguard.
  destruct (reduce_add_returns (a := slice_to closes period)) as [total ->].
  - apply slice_to_nonempty; lia.
  - simpl. eexists. reflexivity.
Qed.

Lemma calculateMACD_absent (closes : list num) (fast slow sig : nat) :
  length closes < slow + sig ->
  calculateMACD closes fast slow sig = Return None.
Proof.
  intros Hlt. unfold calculateMACD.
  apply Nat.ltb_lt in Hlt. rewrite Hlt. reflexivity.
Qed.

Lemma calculateMACD_present (closes : list num) (fast slow sig : nat) :
  1 <= fast <= slow -> 1 <= sig -> slow + sig <= length closes ->
  exists r, calculateMACD closes fast slow sig = Return (Some r)
            /\ histogram r = (macd r - signal r)%num.
Proof.
  intros [Hfast Hslow] Hsig Hge. unfold calculateMACD.
  apply Nat.ltb_ge in Hge as Hguard. rewrite Hguard.
  destruct (reduce_add_returns (a := slice_to closes fast)) as [fastTotal ->];
    [apply slice_to_nonempty; lia|].
  destruct (reduce_add_returns (a := slice_to closes slow)) as [slowTotal ->];
    [apply slice_to_nonempty; lia|].
  cbn [JS.bind].
  match goal with
  | |- context [for_range ?lo ?hi (macd_step ?c ?fk ?sk) (?f, ?s, [])] =>
      pose proof (@macd_line_length c fk sk lo hi f s []) as Hlen;
      destruct (for_range lo hi (macd_step c fk sk) (f, s, []))
        as [[fastEMA slowEMA] macdLine]
  end.
  simpl in Hlen.
  destruct (reduce_add_returns (a := slice_to macdLine sig)) as [sigTotal ->].
  - apply slice_to_nonempty; [lia|]. rewrite Hlen; lia.
  - cbn [JS.bind]. eexists. split; reflexivity.
Qed.

Lemma calculateBollingerBands_absent (closes : list num) (period : nat)
  (stdDev : num) :
  length closes < period ->
  calculateBollingerBands closes period stdDev = Return None.
Proof.
  intros Hlt. unfold calculateBollingerBands.
  apply Nat.ltb_lt in Hlt. rewrite Hlt. reflexivity.
Qed.

Lemma calculateBollingerBands_present (closes : list num) (period : nat)
  (stdDev : num) :
  1 <= period <= length closes ->
  exists b, calculateBollingerBands closes period stdDev = Return (Some b).
Proof.
  intros Hp. unfold calculateBollingerBands.
  assert (Hguard : (length closes <? period)%nat = false)
    by (apply Nat.ltb_ge; lia).
  rewrite Hguard.
  pose proof (slice_last_length closes Hp) as Hlen.
  destruct (reduce_add_returns (a := slice_last closes period)) as [total ->];
    [apply length_nonempty; lia|].
  cbn [JS.bind].
  match goal with
  | |- context [reduce_add (map ?f ?l)] =>
      destruct (reduce_add_returns (a := map f l)) as [squares ->]
  end.
  - apply length_nonempty. rewrite length_map. lia.
  - cbn [JS.bind]. eexists. reflexivity.
Qed.

End Generic.

(** ** The composite scorer *)

Lemma determinePhase_thresholds (s : Z) :
  phase_by_thresholds s (fst (determinePhase s)) (snd (determinePhase s)).
Proof.
  unfold phase_by_thresholds, determinePhase.
  destruct (s >=? 80)%Z eqn:H80; [|destruct (s >=? 60)%Z eqn:H60;
    [|destruct (s >=? 40)%Z eqn:H40; [|destruct (s >=? 20)%Z eqn:H20]]];
    cbn [fst snd]; repeat split; intros; try reflexivity; exfalso; lia.
Qed.

Section Scorer.

Context {num : Type} {A : Arith num}.

(** Case analysis on the five conditions of the scorer. *)
Ltac scorer_cases rsi h ema50 ema200 price :=
  unfold calculateBullMarketIndicator; cbn [read_histogram JS.bind];
  destruct (toNumber rsi >=? #40)%num, (toNumber rsi <=? #70)%num,
           (toNumber rsi >? #70)%num, (h >? #0)%num,
           (toNumber ema50 >? toNumber ema200)%num,
           (toNumber price >? toNumber ema50)%num,
           (toNumber price >? toNumber ema200)%num;
  cbn [andb app determinePhase].

Lemma scorer_returns (rsi : value num) (m : MacdResult num)
  (ema50 ema200 price : value num) :
  exists r,
    calculateBullMarketIndicator rsi (Some m) ema50 ema200 price = Return r
    /\ (0 <= score r <= 100)%Z
    /\ (phase r, phaseColor r) = determinePhase (score r)
    /\ signals_shape (signals r)
    /\ count_in rsi_tags (signals r) = 1
    /\ count_in macd_tags (signals r) = 1
    /\ count_in cross_tags (signals r) = 1
    /\ count_in price_tags (signals r) = length (signals r) - 3
    /\ 3 <= length (signals r) <= 5
    /\ score r = sum_weights (signals r).
Proof.
  scorer_cases rsi (histogram m) ema50 ema200 price;
    (eexists; split; [reflexivity|]);
    cbn [score phase phaseColor signals];
    (split; [lia|]);
    (split; [reflexivity|]);
    (split; [unfold signals_shape; do 4 eexists;
             split; [reflexivity|]; cbn [In]; tauto|]);
    (do 4 (split; [reflexivity|]));
    (split; [cbn [length]; lia|]);
    reflexivity.
Qed.

Lemma scorer_throws_on_null (rsi ema50 ema200 price : value num) :
  calculateBullMarketIndicator rsi None ema50 ema200 price = Throw TypeError.
Proof.
  unfold calculateBullMarketIndicator.
  destruct (_ && _); [|destruct (num_lt _ _)]; reflexivity.
Qed.

End Scorer.

(** ** The aggregator *)

Section Aggregator.

Context {num : Type} {A : Arith num}.

(** Runs the five calculators of [getAllIndicators] on a batch of at least
    35 closes and leaves the scorer and the record to the caller. *)
Ltac run_calculators klines Hlen :=
  unfold getAllIndicators;
  destruct (@calculateMACD_present _ _ (map (@close num) klines) 12 26 9)
    as (m & -> & _); [lia | lia | rewrite length_map; cbn; lia |];
  destruct (@calculateBollingerBands_present _ _ (map (@close num) klines)
              20 (#2)%num) as (b & ->); [rewrite length_map; lia|];
  cbn [JS.bind].

Lemma getAllIndicators_from_35 (klines : list (Candle num)) (now : Z) :
  35 <= length klines ->
  exists s,
    getAllIndicators klines now = Return (Some s)
    /\ snap_timestamp s = now
    /\ rsi_value (snap_rsi s) <> None
    /\ (ema_ema50 (snap_ema s) = None <-> length klines < 50)
    /\ (ema_ema200 (snap_ema s) = None <-> length klines < 200).
Proof.
  intros Hlen.
  run_calculators klines Hlen.
  destruct (@calculateRSI_present _ _ (map (@close num) klines) 14)
    as (r & Hr); [rewrite length_map; lia|].
  rewrite Hr.
  assert (H50 : exists e50,
             calculateEMA (map (@close num) klines) 50 = Return e50
             /\ (e50 = None <-> length klines < 50)).
  { destruct (le_lt_dec 50 (length klines)) as [Hge|Hlt].
    - destruct (@calculateEMA_present _ _ (map (@close num) klines) 50)
        as (v & Hv); [rewrite length_map; lia|].
      exists (Some v). split; [exact Hv|]. split; [discriminate|lia].
    - exists None. split; [|tauto].
      apply calculateEMA_absent. rewrite length_map. lia. }
  assert (H200 : exists e200,
             calculateEMA (map (@close num) klines) 200 = Return e200
             /\ (e200 = None <-> length klines < 200)).
  { destruct (le_lt_dec 200 (length klines)) as [Hge|Hlt].
    - destruct (@calculateEMA_present _ _ (map (@close num) klines) 200)
        as (v & Hv); [rewrite length_map; lia|].
      exists (Some v). split; [exact Hv|]. split; [discriminate|lia].
    - exists None. split; [|tauto].
      apply calculateEMA_absent. rewrite length_map. lia. }
  destruct H50 as (e50 & -> & He50), H200 as (e200 & -> & He200).
  cbn [JS.bind].
  destruct (scorer_returns (nullable (Some r)) m (nullable e50)
              (nullable e200) (last_close (map (@close num) klines)))
    as (bull & -> & _).
  cbn [JS.bind read_bollinger read_macd].
  eexists. split; [reflexivity|].
  cbn [snap_timestamp snap_rsi snap_ema rsi_value ema_ema50 ema_ema200].
  repeat split; try tauto; discriminate.
Qed.

Lemma getAllIndicators_below_35 (klines : list (Candle num)) (now : Z) :
  length klines < 35 -> getAllIndicators klines now = Throw TypeError.
Proof.
  intros Hlen. unfold getAllIndicators.
  rewrite calculateMACD_absent by (rewrite length_map; cbn; lia).
  cbn [JS.bind].
  destruct (calculateBollingerBands _ _ _) as [b|e]; cbn [JS.bind];
    [|destruct e; reflexivity].
  destruct (calculateEMA _ 50) as [e50|e]; cbn [JS.bind];
    [|destruct e; reflexivity].
  destruct (calculateEMA _ 200) as [e200|e]; cbn [JS.bind];
    [|destruct e; reflexivity].
  rewrite scorer_throws_on_null. reflexivity.
Qed.

Lemma getAllIndicators_never_null (klines : list (Candle num)) (now : Z) :
  getAllIndicators klines now <> Return None.
Proof.
  destruct (le_lt_dec 35 (length klines)) as [Hge|Hlt].
  - destruct (getAllIndicators_from_35 klines now Hge) as (s & -> & _).
    discriminate.
  - rewrite getAllIndicators_below_35 by exact Hlt. discriminate.
Qed.

Lemma getAllIndicators_restamp (klines : list (Candle num)) (t1 t2 : Z) :
  getAllIndicators klines t2 = restamp t2 (getAllIndicators klines t1).
Proof.
  unfold getAllIndicators.
  destruct (calculateMACD _ 12 26 9) as [m|e]; cbn [JS.bind restamp];
    [|reflexivity].
  destruct (calculateBollingerBands _ _ _) as [b|e]; cbn [JS.bind restamp];
    [|reflexivity].
  destruct (calculateEMA _ 50) as [e50|e]; cbn [JS.bind restamp];
    [|reflexivity].
  destruct (calculateEMA _ 200) as [e200|e]; cbn [JS.bind restamp];
    [|reflexivity].
  destruct (calculateBullMarketIndicator _ _ _ _ _) as [bull|e];
    cbn [JS.bind restamp]; [|reflexivity].
  destruct (read_bollinger b) as [b'|e]; cbn [JS.bind restamp];
    [|reflexivity].
  destruct (read_macd m) as [m'|e]; cbn [JS.bind restamp]; reflexivity.
Qed.

End Aggregator.

(** ** Exact arithmetic: the engine over the reals *)

Section Exact.

Local Open Scope R_scope.

Lemma real_of_nat (n : nat) : @num_of_nat R real_arith n = INR n.
Proof. unfold num_of_nat. simpl. symmetry. apply INR_IZR_INZ. Qed.

Lemma fold_left_Rplus (l : list R) (a : R) :
  fold_left Rplus l a = a + Rsum l.
Proof.
  revert a. induction l as [|x l IH]; intros a; simpl.
  - lra.
  - rewrite IH. unfold Rsum. lra.
Qed.

Lemma real_reduce_add (l : list R) :
  l <> [] -> @reduce_add R real_arith l = Return (Rsum l).
Proof.
  destruct l as [|x rest]; [congruence|]. intros _.
  unfold reduce_add. simpl. rewrite fold_left_Rplus. reflexivity.
Qed.

(** *** Bounds of sums and means *)

Lemma Rsum_bounds (lo hi : R) (l : list R) :
  Forall (fun x => lo <= x <= hi) l ->
  INR (length l) * lo <= Rsum l <= INR (length l) * hi.
Proof.
  induction 1 as [|x l Hx Hl IH].
  - simpl. lra.
  - change (Rsum (x :: l)) with (x + Rsum l).
    change (length (x :: l)) with (S (length l)).
    rewrite S_INR. lra.
Qed.

Lemma div_bounds (a n lo hi : R) :
  0 < n -> n * lo <= a <= n * hi -> lo <= a / n <= hi.
Proof.
  intros Hn Ha.
  assert (Hq : a = a / n * n) by (field; lra).
  set (q := a / n) in *. nra.
Qed.

Lemma mean_bounds (lo hi : R) (l : list R) :
  l <> [] -> Forall (fun x => lo <= x <= hi) l ->
  lo <= Rsum l / INR (length l) <= hi.
Proof.
  intros Hne Hall.
  pose proof (Rsum_bounds Hall) as [Hlo Hhi].
  assert (Hn : 0 < INR (length l)).
  { apply lt_0_INR. destruct l; simpl; [congruence|lia]. }
  apply div_bounds; [exact Hn|lra].
Qed.

Lemma fold_left_Rmin_le (l : list R) (a : R) :
  fold_left Rmin l a <= a /\ Forall (fun x => fold_left Rmin l a <= x) l.
Proof.
  revert a. induction l as [|x l IH]; intros a; simpl.
  - split; [lra|constructor].
  - destruct (IH (Rmin a x)) as [Hacc Hall].
    pose proof (Rmin_l a x). pose proof (Rmin_r a x).
    split; [lra|]. constructor; [lra|exact Hall].
Qed.

Lemma fold_left_Rmax_ge (l : list R) (a : R) :
  a <= fold_left Rmax l a /\ Forall (fun x => x <= fold_left Rmax l a) l.
Proof.
  revert a. induction l as [|x l IH]; intros a; simpl.
  - split; [lra|constructor].
  - destruct (IH (Rmax a x)) as [Hacc Hall].
    pose proof (Rmax_l a x). pose proof (Rmax_r a x).
    split; [lra|]. constructor; [lra|exact Hall].
Qed.

Lemma list_min_max_bounds (l : list R) :
  Forall (fun x => list_min l <= x <= list_max l) l.
Proof.
  destruct l as [|a l]; [constructor|]. simpl.
  destruct (fold_left_Rmin_le l a) as [Hmin Hmins].
  destruct (fold_left_Rmax_ge l a) as [Hmax Hmaxs].
  constructor; [lra|].
  rewrite Forall_forall in *. intros x Hx.
  specialize (Hmins x Hx). specialize (Hmaxs x Hx). lra.
Qed.

(** *** EMA: a convex combination stays between the bounds *)

Lemma smoothing_constant (period : nat) :
  (1 <= period)%nat -> 0 < 2 / (INR period + 1) <= 1.
Proof.
  intros Hp. apply le_INR in Hp. simpl in Hp.
  assert (Hd : 0 < INR period + 1) by lra.
  split.
  - apply Rdiv_lt_0_compat; lra.
  - apply (@div_bounds 2 (INR period + 1) 0 1); lra.
Qed.

Lemma get_bounds (lo hi : R) (closes : list R) (i : nat) :
  Forall (fun x => lo <= x <= hi) closes -> (i < length closes)%nat ->
  lo <= @get R real_arith closes i <= hi.
Proof.
  intros Hall Hi. rewrite Forall_forall in Hall.
  apply Hall. unfold get. apply nth_In. exact Hi.
Qed.

Lemma ema_within (lo hi : R) (closes : list R) (period : nat) :
  (1 <= period <= length closes)%nat ->
  Forall (fun x => lo <= x <= hi) closes ->
  exists e, @calculateEMA R real_arith closes period = Return (Some e)
            /\ lo <= e <= hi.
Proof.
  intros [Hpos Hlen] Hall. unfold calculateEMA.
  assert (Hguard : (length closes <? period)%nat = false)
    by (apply Nat.ltb_ge; lia).
  rewrite Hguard.
  assert (Hne : slice_to closes period <> [])
    by (apply slice_to_nonempty; lia).
  rewrite (real_reduce_add Hne). cbn [JS.bind].
  eexists. split; [reflexivity|].
  rewrite real_of_nat.
  apply (for_range_ind (fun _ ema => lo <= ema <= hi)).
  - exact Hlen.
  - simpl.
    replace (INR period) with (INR (length (slice_to closes period))).
    + apply mean_bounds; [exact Hne|].
      unfold slice_to. rewrite Forall_forall in *.
      intros x Hx. apply Hall.
      rewrite <- (firstn_skipn period closes). apply in_or_app. now left.
    + unfold slice_to. rewrite length_firstn. f_equal. lia.
  - intros i ema Hi Hema. unfold ema_step. simpl.
    pose proof (@get_bounds lo hi closes i Hall ltac:(lia)) as Hget.
    pose proof (smoothing_constant Hpos) as Hk.
    set (k := 2 / (INR period + 1)) in *.
    set (x := get closes i) in *.
    nra.
Qed.

(** *** Bollinger Bands *)

Lemma slice_last_is_last_n (closes : list R) (period : nat) :
  (1 <= period)%nat -> slice_last closes period = last_n period closes.
Proof. destruct period; [lia|reflexivity]. Qed.

Lemma bollinger_exact (closes : list R) (period : nat) (stdDev : R) :
  (1 <= period <= length closes)%nat ->
  exists b,
    @calculateBollingerBands R real_arith closes period stdDev = Return (Some b)
    /\ middle b = mean (last_n period closes)
    /\ upper b = middle b + sqrt (pop_variance (last_n period closes)) * stdDev
    /\ lower b = middle b - sqrt (pop_variance (last_n period closes)) * stdDev.
Proof.
  intros Hp. unfold calculateBollingerBands.
  assert (Hguard : (length closes <? period)%nat = false)
    by (apply Nat.ltb_ge; lia).
  rewrite Hguard.
  pose proof (slice_last_length closes Hp) as Hlen.
  rewrite slice_last_is_last_n in * by lia.
  remember (last_n period closes) as recent eqn:Hrecent.
  clear Hrecent. subst period.
  rewrite real_reduce_add by (apply length_nonempty; lia).
  cbn [JS.bind].
  rewrite real_reduce_add
    by (apply length_nonempty; rewrite length_map; lia).
  cbn [JS.bind].
  eexists. split; [reflexivity|].
  cbn [middle upper lower]. rewrite real_of_nat.
  unfold mean, pop_variance, pow2. simpl.
  repeat split; reflexivity.
Qed.

End Exact.

(** *** RSI over the reals *)

Section ExactRSI.

Local Open Scope R_scope.

Lemma deltas_nonneg_upto_1 (closes : list R) : deltas_nonneg_upto closes 1.
Proof. intros i Hi. lia. Qed.

Lemma deltas_nonneg_upto_S (closes : list R) (j : nat) :
  (1 <= j)%nat ->
  deltas_nonneg_upto closes (S j) <->
  deltas_nonneg_upto closes j /\ nth (j - 1) closes 0 <= nth j closes 0.
Proof.
  intros Hj. unfold deltas_nonneg_upto. split.
  - intros H. split.
    + intros i Hi. apply H. lia.
    + apply H. lia.
  - intros [H Hlast] i Hi.
    destruct (Nat.eq_dec i j) as [->|Hne]; [exact Hlast|].
    apply H. lia.
Qed.

Lemma rsi_seed_step_inv (closes : list R) (i : nat) (acc : R * R) :
  (1 <= i)%nat -> seed_inv closes i acc ->
  seed_inv closes (S i) (@rsi_seed_step R real_arith closes i acc).
Proof.
  intros Hi (Hg & Hl & Hzero). destruct acc as [gains losses].
  unfold seed_inv, rsi_seed_step, get. simpl in *.
  rewrite deltas_nonneg_upto_S by exact Hi.
  set (a := nth (i - 1) closes 0) in *. set (b := nth i closes 0) in *.
  destruct (Rlt_dec 0 (b - a)) as [Hup|Hdown]; cbn [fst snd].
  - split; [lra|]. split; [lra|]. split.
    + intros H. split; [tauto|lra].
    + tauto.
  - split; [lra|]. split; [lra|]. split.
    + intros H. split; [apply Hzero|]; lra.
    + intros [Hall Hab]. apply Hzero in Hall. lra.
Qed.

Lemma div_nonneg (a n : R) : 0 < n -> 0 <= a -> 0 <= a / n.
Proof.
  intros Hn Ha. unfold Rdiv. apply Rmult_le_pos; [exact Ha|].
  left. apply Rinv_0_lt_compat. exact Hn.
Qed.

Lemma div_zero_iff (a n : R) : 0 < n -> (a / n = 0 <-> a = 0).
Proof.
  intros Hn. split; intros H.
  - assert (Ha : a = a / n * n) by (field; lra). rewrite H in Ha. lra.
  - subst a. unfold Rdiv. lra.
Qed.

Lemma rsi_smooth_step_inv (closes : list R) (period i : nat) (acc : R * R) :
  (1 <= period)%nat -> (1 <= i)%nat -> smooth_inv closes period i acc ->
  smooth_inv closes period (S i)
    (@rsi_smooth_step R real_arith closes period i acc).
Proof.
  intros Hp Hi (Hg & Hl & Hzero). destruct acc as [avgGain avgLoss].
  unfold smooth_inv, rsi_smooth_step, get. rewrite real_of_nat.
  simpl in *.
  assert (Hn : 1 <= INR period) by (apply le_INR in Hp; simpl in Hp; lra).
  set (n := INR period) in *.
  set (a := nth (i - 1) closes 0) in *. set (b := nth i closes 0) in *.
  assert (Hmg : 0 <= avgGain * (n - 1)) by (apply Rmult_le_pos; lra).
  assert (Hml : 0 <= avgLoss * (n - 1)) by (apply Rmult_le_pos; lra).
  destruct (Rlt_dec 0 (b - a)) as [Hup|Hnup];
    destruct (Rlt_dec (b - a) 0) as [Hdown|Hndown]; try lra;
    (split; [apply div_nonneg; lra|]);
    (split; [apply div_nonneg; lra|]);
    intros H2; rewrite div_zero_iff by lra;
    rewrite deltas_nonneg_upto_S by exact Hi; fold a b;
    specialize (Hzero H2);
    assert (Hn2 : 2 <= n) by (apply le_INR in H2; simpl in H2; unfold n; lra).
  - split.
    + intros H. assert (avgLoss = 0) by nra. split; [tauto|lra].
    + intros [Hall _]. apply Hzero in Hall. subst avgLoss. lra.
  - split.
    + intros H. exfalso. nra.
    + intros [_ Hab]. lra.
  - split.
    + intros H. assert (avgLoss = 0) by nra. split; [tauto|lra].
    + intros [Hall _]. apply Hzero in Hall. subst avgLoss. lra.
Qed.

Lemma rsi_averages_inv (closes : list R) (period : nat) :
  (1 <= period)%nat -> (period + 1 <= length closes)%nat ->
  smooth_inv closes period (length closes)
    (@rsi_averages R real_arith closes period).
Proof.
  intros Hp Hlen. unfold rsi_averages.
  assert (Hseed : seed_inv closes (period + 1)
            (for_range 1 (period + 1) (@rsi_seed_step R real_arith closes)
               (0, 0))).
  { apply (for_range_ind (seed_inv closes)); [lia| |].
    - unfold seed_inv. cbn [fst snd].
      repeat split; try lra. intros _. apply deltas_nonneg_upto_1.
    - intros i acc Hi. apply rsi_seed_step_inv. lia. }
  simpl (num_of_Z 0).
  destruct (for_range 1 (period + 1) (@rsi_seed_step R real_arith closes)
              (0, 0)) as [gains losses].
  destruct Hseed as (Hg & Hl & Hzero). cbn [fst snd] in *.
  assert (Hn : 0 < INR period) by (apply lt_0_INR; lia).
  apply (for_range_ind (smooth_inv closes period)); [lia| |].
  - unfold smooth_inv. cbn [fst snd]. rewrite real_of_nat. simpl.
    split; [apply div_nonneg; assumption|].
    split; [apply div_nonneg; assumption|].
    intros _. rewrite div_zero_iff by exact Hn. exact Hzero.
  - intros i acc Hi. apply rsi_smooth_step_inv; lia.
Qed.

Lemma rsi_formula_range (avgGain avgLoss : R) :
  0 <= avgGain -> 0 < avgLoss ->
  0 <= 100 - 100 / (1 + avgGain / avgLoss) < 100.
Proof.
  intros Hg Hl.
  assert (Hq : 0 <= avgGain / avgLoss) by (apply div_nonneg; assumption).
  set (q := avgGain / avgLoss) in *.
  assert (Hd : 0 < 100 / (1 + q)) by (apply Rdiv_lt_0_compat; lra).
  assert (Hd' : 100 / (1 + q) <= 100).
  { apply (@div_bounds 100 (1 + q) 0 100); [lra|]. nra. }
  lra.
Qed.

Lemma rsi_exact (closes : list R) (period : nat) :
  (1 <= period)%nat -> (period + 1 <= length closes)%nat ->
  exists v,
    @calculateRSI R real_arith closes period = Some v
    /\ 0 <= v <= 100
    /\ (snd (@rsi_averages R real_arith closes period) = 0 -> v = 100)
    /\ ((2 <= period)%nat -> (v = 100 <-> deltas_nonneg closes)).
Proof.
  intros Hp Hlen.
  pose proof (rsi_averages_inv closes Hp Hlen) as Hinv.
  unfold calculateRSI.
  assert (Hguard : (length closes <? period + 1)%nat = false)
    by (apply Nat.ltb_ge; lia).
  rewrite Hguard.
  destruct (@rsi_averages R real_arith closes period) as [avgGain avgLoss].
  destruct Hinv as (Hg & Hl & Hzero). cbn [fst snd] in *.
  simpl. destruct (Req_dec_T avgLoss 0) as [Hz|Hnz].
  - exists 100. split; [reflexivity|]. split; [lra|]. split; [reflexivity|].
    intros H2. split; [|reflexivity].
    intros _. apply (Hzero H2). exact Hz.
  - pose proof (@rsi_formula_range avgGain avgLoss Hg ltac:(lra)) as Hr.
    eexists. split; [reflexivity|]. split; [lra|]. split; [tauto|].
    intros H2. split; [lra|].
    intros Hall. apply (Hzero H2) in Hall. tauto.
Qed.

End ExactRSI.

(** * The claims *)

(** ** Aggregation *)

(** C1, as amended.  [getAllIndicators] has no absent result.  On a batch of
    at least 35 closes it returns a snapshot object, stamped with the clock,
    whose RSI is present and in which exactly the moving averages whose
    lookback the batch does not reach are null: [ema50] below 50 closes,
    [ema200] below 200 closes.  From 200 closes on every indicator is
    present. *)
Theorem getAllIndicators_partial_snapshot
  {num : Type} {A : Arith num} (klines : list (Candle num)) (now : Z) :
  35 <= length klines ->
  exists s,
    getAllIndicators klines now = Return (Some s)
    /\ snap_timestamp s = now
    /\ rsi_value (snap_rsi s) <> None
    /\ (ema_ema50 (snap_ema s) = None <-> length klines < 50)
    /\ (ema_ema200 (snap_ema s) = None <-> length klines < 200)
    /\ (200 <= length klines -> fully_populated s).
Proof.
  intros Hlen.
  destruct (getAllIndicators_from_35 klines now Hlen)
    as (s & Hs & Hts & Hrsi & H50 & H200).
  exists s. do 5 (split; [assumption|]).
  intros Hfull. unfold fully_populated.
  split; [exact Hrsi|]. split; intros Hnone.
  - apply H50 in Hnone. lia.
  - apply H200 in Hnone. lia.
Qed.

(** The theorem on fifty rising candles, in binary64. *)
Lemma getAllIndicators_partial_snapshot_at_50 :
  35 <= length (rising_batch 50) /\
  exists s,
    getAllIndicators (rising_batch 50) 1732704000000 = Return (Some s)
    /\ snap_timestamp s = 1732704000000%Z
    /\ rsi_value (snap_rsi s) <> None
    /\ (ema_ema50 (snap_ema s) = None <-> length (rising_batch 50) < 50)
    /\ (ema_ema200 (snap_ema s) = None <-> length (rising_batch 50) < 200)
    /\ (200 <= length (rising_batch 50) -> fully_populated s).
Proof.
  split.
  - vm_compute. lia.
  - apply (@getAllIndicators_partial_snapshot float float_arith
             (rising_batch 50) 1732704000000).
    vm_compute. lia.
Defined.

(** C1 fails as stated: fifty candles closing at 1, 2, ..., 50 do not make
    the aggregation report absence.  It returns a snapshot, scored 80 and
    labelled with the strongest phase, in which [ema200] is null and every
    other indicator is a number. *)
Lemma aggregation_of_50_candles_is_partial :
  exists s,
    getAllIndicators (rising_batch 50) 0 = Return (Some s)
    /\ ema_ema200 (snap_ema s) = None
    /\ ema_ema50 (snap_ema s) = Some 25.5%float
    /\ rsi_value (snap_rsi s) = Some 100%float
    /\ snap_currentPrice s = Num 50%float
    /\ score (snap_bullMarket s) = 80%Z
    /\ phase (snap_bullMarket s) = Tag.StrongBull.
Proof.
  eexists. split; [vm_compute; reflexivity|].
  repeat split.
Qed.

(** C9.  The clock enters the snapshot through the timestamp only: run on
    the same batch at two instants, the aggregation has the same outcome,
    and two returned snapshots agree on the current price and on every
    indicator record (RSI, MACD, Bollinger, EMA, bull-market score); each
    carries its own instant as timestamp. *)
Theorem getAllIndicators_deterministic
  {num : Type} {A : Arith num} (klines : list (Candle num)) (t1 t2 : Z) :
  getAllIndicators klines t2 = restamp t2 (getAllIndicators klines t1)
  /\ forall s1,
       getAllIndicators klines t1 = Return (Some s1) ->
       exists s2,
         getAllIndicators klines t2 = Return (Some s2)
         /\ snap_currentPrice s2 = snap_currentPrice s1
         /\ snap_rsi s2 = snap_rsi s1
         /\ snap_macd s2 = snap_macd s1
         /\ snap_bollinger s2 = snap_bollinger s1
         /\ snap_ema s2 = snap_ema s1
         /\ snap_bullMarket s2 = snap_bullMarket s1
         /\ snap_timestamp s1 = t1
         /\ snap_timestamp s2 = t2.
Proof.
  pose proof (getAllIndicators_restamp klines t1 t2) as H12.
  pose proof (getAllIndicators_restamp klines t1 t1) as H11.
  split; [exact H12|].
  intros s1 Hs1. rewrite Hs1 in H12, H11. cbn [restamp] in H12, H11.
  exists (set_timestamp t2 s1). split; [exact H12|].
  assert (Hts : snap_timestamp s1 = t1).
  { injection H11 as H11. rewrite H11. reflexivity. }
  repeat split; exact Hts.
Qed.

(** The theorem on fifty rising candles at two instants five minutes apart,
    in binary64. *)
Lemma getAllIndicators_deterministic_at_50 :
  exists s1 s2,
    getAllIndicators (rising_batch 50) 1732704000000 = Return (Some s1)
    /\ getAllIndicators (rising_batch 50) 1732704300000 = Return (Some s2)
    /\ snap_currentPrice s2 = snap_currentPrice s1
    /\ snap_rsi s2 = snap_rsi s1
    /\ snap_macd s2 = snap_macd s1
    /\ snap_bollinger s2 = snap_bollinger s1
    /\ snap_ema s2 = snap_ema s1
    /\ snap_bullMarket s2 = snap_bullMarket s1
    /\ snap_timestamp s1 = 1732704000000%Z
    /\ snap_timestamp s2 = 1732704300000%Z.
Proof.
  eexists.
  destruct (proj2 (@getAllIndicators_deterministic float float_arith
                     (rising_batch 50) 1732704000000 1732704300000)
              _ ltac:(vm_compute; reflexivity)) as (s2 & Hs2 & Hrest).
  exists s2. split; [vm_compute; reflexivity|].
  split; [exact Hs2|exact Hrest].
Defined.

(** ** The calculators *)

(** C6.  On a sequence of at least slowPeriod + signalPeriod closes (periods
    positive, the fast one not above the slow one) [calculateMACD] returns a
    result, and its histogram is the very difference of its MACD and signal
    values: the identity is exact in every arithmetic, binary64 included, so
    it holds within any tolerance. *)
Theorem macd_histogram_identity
  {num : Type} {A : Arith num} (closes : list num)
  (fastPeriod slowPeriod signalPeriod : nat) :
  1 <= fastPeriod <= slowPeriod -> 1 <= signalPeriod ->
  slowPeriod + signalPeriod <= length closes ->
  exists r,
    calculateMACD closes fastPeriod slowPeriod signalPeriod = Return (Some r)
    /\ histogram r = (macd r - signal r)%num.
Proof.
  intros Hfast Hsig Hlen.
  destruct (calculateMACD_present closes Hfast Hsig Hlen) as (r & Hr & Hid).
  exists r. split; assumption.
Qed.

(** The theorem on thirty-five rising closes with the default periods, in
    binary64. *)
Lemma macd_histogram_identity_on_35_closes :
  (1 <= 12 <= 26 /\ 1 <= 9 /\
   26 + 9 <= length (map (@close float) (rising_batch 35))) /\
  exists r,
    calculateMACD (map (@close float) (rising_batch 35)) 12 26 9
    = Return (Some r)
    /\ histogram r = (macd r - signal r)%num.
Proof.
  assert (Hlen : 26 + 9 <= length (map (@close float) (rising_batch 35)))
    by (vm_compute; lia).
  split.
  - split; [lia|]. split; [lia|exact Hlen].
  - apply (@macd_histogram_identity float float_arith
             (map (@close float) (rising_batch 35)) 12 26 9);
      [lia | lia | exact Hlen].
Defined.

(** ** The composite scorer *)

(** C2.  For RSI 55, histogram +1, ema50 100, ema200 90 and price 105 the
    scorer returns score 100, the strongest bull phase, colour up, and a
    signal list holding the Golden Cross and the positive-MACD tags.  (The
    source spells the phase "Bull Market Fort" and the tag "MACD positif".) *)
Theorem bull_market_score_example (macdLine signalLine : float) :
  exists r,
    calculateBullMarketIndicator (Num 55%float)
      (Some {| macd := macdLine; signal := signalLine; histogram := 1%float |})
      (Num 100%float) (Num 90%float) (Num 105%float) = Return r
    /\ score r = 100%Z
    /\ phase r = Tag.StrongBull
    /\ phaseColor r = Tag.up
    /\ In Tag.GoldenCross (signals r)
    /\ In Tag.MacdPositive (signals r).
Proof.
  eexists. split; [vm_compute; reflexivity|].
  cbn [score phase phaseColor signals In].
  repeat split; auto.
Qed.

(** C8.  The phase follows the score by thresholds read from the top: 80 and
    above is the strong bull phase, 60 to 79 the moderate bull phase, 40 to
    59 neutral, 20 to 39 the moderate bear phase, below 20 the strong bear
    phase; the colour is up for the bull phases, down for the bear phases and
    neutral between.  This holds of the classification at every score and of
    the score, phase and colour of every result of the scorer, whose score
    lies in [0,100]. *)
Theorem phase_follows_score_thresholds {num : Type} {A : Arith num} :
  (forall s : Z,
      phase_by_thresholds s (fst (determinePhase s)) (snd (determinePhase s)))
  /\ forall (rsi : value num) (m : MacdResult num)
            (ema50 ema200 price : value num),
       exists r,
         calculateBullMarketIndicator rsi (Some m) ema50 ema200 price
         = Return r
         /\ (0 <= score r <= 100)%Z
         /\ phase_by_thresholds (score r) (phase r) (phaseColor r).
Proof.
  split; [exact determinePhase_thresholds|].
  intros rsi m ema50 ema200 price.
  destruct (scorer_returns rsi m ema50 ema200 price)
    as (r & Hr & Hrange & Hphase & _).
  exists r. split; [exact Hr|]. split; [exact Hrange|].
  pose proof (determinePhase_thresholds (score r)) as Hth.
  rewrite <- Hphase in Hth. exact Hth.
Qed.

(** C10.  Whatever the inputs, the signal list of the scorer is one RSI tag,
    then one MACD tag, then one cross tag, then the price-above-EMA tags that
    passed (none, one or both): three to five tags, one of each of the first
    three groups; and the score is the sum of the weights of the pass tags in
    the list. *)
Theorem signals_shape_and_score
  {num : Type} {A : Arith num} (rsi : value num) (m : MacdResult num)
  (ema50 ema200 price : value num) :
  exists r,
    calculateBullMarketIndicator rsi (Some m) ema50 ema200 price = Return r
    /\ signals_shape (signals r)
    /\ count_in rsi_tags (signals r) = 1
    /\ count_in macd_tags (signals r) = 1
    /\ count_in cross_tags (signals r) = 1
    /\ count_in price_tags (signals r) = length (signals r) - 3
    /\ 3 <= length (signals r) <= 5
    /\ score r = sum_weights (signals r).
Proof.
  destruct (scorer_returns rsi m ema50 ema200 price)
    as (r & Hr & _ & _ & Hrest).
  exists r. split; [exact Hr|exact Hrest].
Qed.

(** ** Numeric properties, in exact arithmetic *)




(** C4, as amended.  In exact arithmetic, for a period of at least 1, a
    sequence of at least that many closes and a non-negative multiplier, the
    bands are symmetric about the middle, upper - middle = middle - lower,
    and ordered, upper >= middle >= lower; the middle is the simple mean of
    the last [period] closes and the bands lie the multiplier times the
    square root of their population variance (divisor [period]) away from
    it. *)
Theorem bollinger_bands_exact (closes : list R) (period : nat) (stdDev : R) :
  1 <= period <= length closes -> (0 <= stdDev)%R ->
  exists b,
    @calculateBollingerBands R real_arith closes period stdDev
    = Return (Some b)
    /\ (upper b - middle b = middle b - lower b)%R
    /\ (lower b <= middle b <= upper b)%R
    /\ length (last_n period closes) = period
    /\ middle b = mean (last_n period closes)
    /\ (upper b - middle b
        = stdDev * sqrt (pop_variance (last_n period closes)))%R.
Proof.
  intros Hp Hm.
  destruct (bollinger_exact closes stdDev Hp) as (b & Hb & Hmid & Hup & Hlow).
  exists b. split; [exact Hb|].
  pose proof (sqrt_pos (pop_variance (last_n period closes))) as Hsd.
  set (sd := sqrt (pop_variance (last_n period closes))) in *.
  assert (Hprod : (0 <= sd * stdDev)%R) by (apply Rmult_le_pos; assumption).
  split; [lra|]. split; [lra|].
  split; [unfold last_n; rewrite length_skipn; lia|].
  split; [exact Hmid|]. lra.
Qed.

(** The theorem on the closes 3, 1, 2 with period 3 and multiplier 2. *)
Lemma bollinger_bands_exact_on_dip :
  (1 <= 3 <= length dip_and_rise_exact /\ (0 <= 2)%R) /\
  exists b,
    @calculateBollingerBands R real_arith dip_and_rise_exact 3 2%R
    = Return (Some b)
    /\ (upper b - middle b = middle b - lower b)%R
    /\ (lower b <= middle b <= upper b)%R
    /\ length (last_n 3 dip_and_rise_exact) = 3
    /\ middle b = mean (last_n 3 dip_and_rise_exact)
    /\ (upper b - middle b
        = 2 * sqrt (pop_variance (last_n 3 dip_and_rise_exact)))%R.
Proof.
  split.
  - split; [simpl; lia|lra].
  - apply (@bollinger_bands_exact dip_and_rise_exact 3 2%R);
      [simpl; lia|lra].
Defined.

(** C4 fails as stated in binary64: on the closes 1, 1, 4 with period 3 and
    multiplier 2 the mean 2, the variance 2 and the lower band 2 - 2 sqrt 2
    are computed without rounding error beyond the square root, but the upper
    band 2 + 2 sqrt 2 is rounded, so upper - middle falls short of
    middle - lower in the last place. *)
Lemma bollinger_symmetry_breaks_in_binary64 :
  exists b,
    @calculateBollingerBands float float_arith one_one_four 3 2%float
    = Return (Some b)
    /\ middle b = 2%float
    /\ PrimFloat.eqb (upper b - middle b) (middle b - lower b) = false
    /\ PrimFloat.ltb (upper b - middle b) (middle b - lower b) = true.
Proof.
  eexists. split; [vm_compute; reflexivity|].
  repeat split; vm_compute; reflexivity.
Qed.

(** C5, as amended.  In exact arithmetic, for a period of at least 1 and a
    sequence of at least that many closes, the value [calculateEMA] returns
    lies between the least and the greatest close. *)
Theorem ema_within_min_max_exact (closes : list R) (period : nat) :
  1 <= period <= length closes ->
  exists e,
    @calculateEMA R real_arith closes period = Return (Some e)
    /\ (list_min closes <= e <= list_max closes)%R.
Proof.
  intros Hp.
  apply ema_within; [exact Hp|]. apply list_min_max_bounds.
Qed.

(** The theorem on the closes 3, 1, 2 with period 2. *)
Lemma ema_within_min_max_exact_on_dip :
  1 <= 2 <= length dip_and_rise_exact /\
  exists e,
    @calculateEMA R real_arith dip_and_rise_exact 2 = Return (Some e)
    /\ (list_min dip_and_rise_exact <= e <= list_max dip_and_rise_exact)%R.
Proof.
  split.
  - simpl. lia.
  - apply (@ema_within_min_max_exact dip_and_rise_exact 2). simpl. lia.
Defined.

(** C5 fails as stated in binary64: ten closes at 3 with period 9 have least
    and greatest close 3, and the one step of the recurrence,
    3 * 0.2 + 3 * 0.8, rounds to a value above 3. *)
Lemma ema_leaves_range_in_binary64 :
  exists e,
    @calculateEMA float float_arith flat_at_3 9 = Return (Some e)
    /\ Forall (fun c => PrimFloat.eqb c 3 = true) flat_at_3
    /\ PrimFloat.ltb 3 e = true.
Proof.
  eexists. split; [vm_compute; reflexivity|].
  split; [|vm_compute; reflexivity].
  unfold flat_at_3. simpl. repeat constructor.
Qed.

(** * Further properties of the code *)

(** ** The calculators on every input *)

Section Outcomes.

Context {num : Type} {A : Arith num}.

Lemma for_range_ext (State : Type) (lo hi : nat)
  (body body' : nat -> State -> State) (s : State) :
  (forall i acc, lo <= i < hi -> body i acc = body' i acc) ->
  for_range lo hi body s = for_range lo hi body' s.
Proof.
  intros Hext.
  destruct (le_lt_dec lo hi) as [Hle|Hlt].
  - apply (for_range_ind
             (fun j acc => acc = for_range lo j body' s) body s Hle).
    + rewrite for_range_empty by lia. reflexivity.
    + intros i acc Hi ->. rewrite for_range_last by lia.
      apply Hext. exact Hi.
  - rewrite !for_range_empty by lia. reflexivity.
Qed.

Lemma get_app_old (closes : list num) (x : num) (i : nat) :
  i < length closes -> get (closes ++ [x]) i = get closes i.
Proof. intros Hi. unfold get. apply app_nth1. exact Hi. Qed.

Lemma get_app_new (closes : list num) (x : num) :
  get (closes ++ [x]) (length closes) = x.
Proof.
  unfold get. rewrite app_nth2 by lia.
  rewrite Nat.sub_diag. reflexivity.
Qed.

Lemma slice_to_app (closes : list num) (x : num) (n : nat) :
  n <= length closes -> slice_to (closes ++ [x]) n = slice_to closes n.
Proof.
  intros Hn. unfold slice_to. rewrite firstn_app.
  replace (n - length closes) with 0 by lia.
  rewrite firstn_0. apply app_nil_r.
Qed.

(** X1.  [calculateEMA] has three outcomes and the period and the length
    alone decide between them: a TypeError for period 0 (the seed reduces an
    empty slice), null for a period beyond the length, a number otherwise. *)
Theorem calculateEMA_outcomes (closes : list num) (period : nat) :
  (period = 0 -> calculateEMA closes period = Throw TypeError)
  /\ (length closes < period -> calculateEMA closes period = Return None)
  /\ (1 <= period <= length closes ->
      exists v, calculateEMA closes period = Return (Some v)).
Proof.
  split; [|split].
  - intros ->. unfold calculateEMA. reflexivity.
  - apply calculateEMA_absent.
  - apply calculateEMA_present.
Qed.

(** X2.  Appending one close advances the EMA by one step of its
    recurrence: if the EMA of [closes] is [e], the EMA of [closes] followed
    by [x] is x * k + e * (1 - k) with k = 2 / (period + 1), in every
    arithmetic. *)
Theorem calculateEMA_append (closes : list num) (period : nat) (x e : num) :
  calculateEMA closes period = Return (Some e) ->
  calculateEMA (closes ++ [x]) period
  = Return (Some (x * (#2 / (##period + #1))
                  + e * (#1 - #2 / (##period + #1)))%num).
Proof.
  unfold calculateEMA. intros He.
  destruct (length closes <? period) eqn:Hguard; [discriminate|].
  apply Nat.ltb_ge in Hguard.
  assert (Hguard' : (length (closes ++ [x]) <? period) = false).
  { apply Nat.ltb_ge. rewrite length_app. simpl. lia. }
  rewrite Hguard'. rewrite slice_to_app by exact Hguard.
  destruct (reduce_add (slice_to closes period)) as [total|err];
    [|discriminate].
  cbn [JS.bind] in *. injection He as He.
  rewrite length_app. cbn [length].
  replace (length closes + 1) with (S (length closes)) by lia.
  rewrite for_range_last by exact Hguard.
  unfold ema_step at 1. rewrite get_app_new.
  rewrite (@for_range_ext num period (length closes)
             (ema_step (closes ++ [x]) (#2 / (##period + #1))%num)
             (ema_step closes (#2 / (##period + #1))%num)).
  - rewrite He. reflexivity.
  - intros i acc Hi. unfold ema_step. rewrite get_app_old by lia.
    reflexivity.
Qed.

End Outcomes.

Section OutcomesMACD.

Context {num : Type} {A : Arith num}.

Lemma slice_to_empty_iff (a : list num) (n : nat) :
  slice_to a n = [] <-> n = 0 \/ a = [].
Proof.
  unfold slice_to. destruct n, a; simpl; split; intros H; auto;
    try discriminate; destruct H; discriminate.
Qed.

Lemma reduce_add_throws_iff (a : list num) :
  reduce_add a = Throw TypeError <-> a = [].
Proof.
  destruct a; simpl; split; intros H; auto; discriminate.
Qed.

Lemma calculateMACD_returns (closes : list num) (fast slow sig : nat) :
  1 <= fast < length closes -> 1 <= slow -> 1 <= sig ->
  slow + sig <= length closes ->
  exists r, calculateMACD closes fast slow sig = Return (Some r).
Proof.
  intros Hfast Hslow Hsig Hge. unfold calculateMACD.
  apply Nat.ltb_ge in Hge as Hguard. rewrite Hguard.
  destruct (reduce_add_returns (a := slice_to closes fast)) as [fastTotal ->];
    [apply slice_to_nonempty; lia|].
  destruct (reduce_add_returns (a := slice_to closes slow)) as [slowTotal ->];
    [apply slice_to_nonempty; lia|].
  cbn [JS.bind].
  match goal with
  | |- context [for_range ?lo ?hi (macd_step ?c ?fk ?sk) (?f, ?s, [])] =>
      pose proof (@macd_line_length _ _ c fk sk lo hi f s []) as Hlen;
      destruct (for_range lo hi (macd_step c fk sk) (f, s, []))
        as [[fastEMA slowEMA] macdLine]
  end.
  cbn [snd length] in Hlen.
  destruct (reduce_add_returns (a := slice_to macdLine sig)) as [sigTotal ->].
  - apply slice_to_nonempty; [lia|]. rewrite Hlen; lia.
  - cbn [JS.bind]. eexists. reflexivity.
Qed.

Lemma calculateMACD_throws (closes : list num) (fast slow sig : nat) :
  slow + sig <= length closes ->
  fast = 0 \/ slow = 0 \/ sig = 0 \/ length closes <= fast ->
  calculateMACD closes fast slow sig = Throw TypeError.
Proof.
  intros Hge Hbad. unfold calculateMACD.
  apply Nat.ltb_ge in Hge as Hguard. rewrite Hguard.
  destruct (reduce_add (slice_to closes fast)) as [fastTotal|[]] eqn:Hf;
    [|reflexivity].
  destruct (reduce_add (slice_to closes slow)) as [slowTotal|[]] eqn:Hs;
    [|reflexivity].
  cbn [JS.bind].
  assert (Hfast : fast <> 0 /\ closes <> []).
  { split; intros ->; simpl in Hf; try discriminate.
    unfold slice_to in Hf. rewrite firstn_nil in Hf. discriminate. }
  assert (Hslow : slow <> 0) by (intros ->; simpl in Hs; discriminate).
  match goal with
  | |- context [for_range ?lo ?hi (macd_step ?c ?fk ?sk) (?f, ?s, [])] =>
      pose proof (@macd_line_length _ _ c fk sk lo hi f s []) as Hlen;
      pose proof (@for_range_empty _ lo hi (macd_step c fk sk) (f, s, []))
        as Hempty;
      destruct (for_range lo hi (macd_step c fk sk) (f, s, []))
        as [[fastEMA slowEMA] macdLine]
  end.
  cbn [snd length] in Hlen.
  assert (Hline : slice_to macdLine sig = []).
  { apply slice_to_empty_iff.
    destruct Hbad as [H|[H|[H|H]]]; try lia.
    right. assert (Hnil : (fastEMA, slowEMA, macdLine)
                          = (fastTotal / ##fast, slowTotal / ##slow, [])%num)
      by (apply Hempty; lia).
    injection Hnil as _ _ Hnil. exact Hnil. }
  rewrite Hline. reflexivity.
Qed.

(** X3.  On an input that passes the length guard, [calculateMACD] returns a
    result exactly when the three periods are positive and the fast period is
    below the number of closes; otherwise an empty slice is reduced and the
    call throws a TypeError. *)
Theorem calculateMACD_outcomes (closes : list num) (fast slow sig : nat) :
  slow + sig <= length closes ->
  ((1 <= fast < length closes /\ 1 <= slow /\ 1 <= sig) ->
   exists r, calculateMACD closes fast slow sig = Return (Some r))
  /\ (~ (1 <= fast < length closes /\ 1 <= slow /\ 1 <= sig) ->
      calculateMACD closes fast slow sig = Throw TypeError).
Proof.
  intros Hge. split.
  - intros (Hfast & Hslow & Hsig). apply calculateMACD_returns; assumption.
  - intros Hbad. apply calculateMACD_throws; [exact Hge|]. lia.
Qed.

(** X4.  [calculateBollingerBands] throws, a TypeError, only for period 0 on
    an empty array; period 0 on a non-empty array passes the guard, takes the
    whole array as its window and returns bands. *)
Theorem calculateBollingerBands_outcomes (closes : list num) (period : nat)
  (stdDev : num) :
  (calculateBollingerBands closes period stdDev = Throw TypeError
   <-> period = 0 /\ closes = [])
  /\ (period = 0 -> closes <> [] ->
      exists b, calculateBollingerBands closes 0 stdDev = Return (Some b)).
Proof.
  split.
  - split.
    + intros Hthrow.
      destruct (le_lt_dec period (length closes)) as [Hle|Hlt].
      * destruct period as [|p].
        -- split; [reflexivity|]. destruct closes as [|c rest];
             [reflexivity|].
           destruct (reduce_add_returns
                       (a := map (fun close => pow2 (close -
                               fold_left num_add rest c / ##0)%num)
                               (c :: rest))) as [sq Hsq]; [discriminate|].
           unfold calculateBollingerBands in Hthrow.
           cbn [length Nat.ltb Nat.leb slice_last reduce_add JS.bind]
             in Hthrow.
           rewrite Hsq in Hthrow. discriminate.
        -- destruct (@calculateBollingerBands_present _ _ closes (S p) stdDev)
             as (b & Hb); [lia|]. rewrite Hb in Hthrow. discriminate.
      * rewrite calculateBollingerBands_absent in Hthrow by exact Hlt.
        discriminate.
    + intros [-> ->]. reflexivity.
  - intros _ Hne. destruct closes as [|c rest]; [congruence|].
    unfold calculateBollingerBands.
    cbn [length Nat.ltb Nat.leb slice_last reduce_add JS.bind].
    match goal with
    | |- context [reduce_add (map ?f ?l)] =>
        destruct (reduce_add_returns (a := map f l)) as [sq ->];
          [discriminate|]
    end.
    cbn [JS.bind]. eexists. reflexivity.
Qed.

(** X5.  The Bollinger Bands see the last [period] closes only: whatever
    precedes a window of exactly [period] closes does not change the
    result. *)
Theorem calculateBollingerBands_window (older recent : list num)
  (period : nat) (stdDev : num) :
  1 <= period -> length recent = period ->
  calculateBollingerBands (older ++ recent) period stdDev
  = calculateBollingerBands recent period stdDev.
Proof.
  intros Hp Hlen. unfold calculateBollingerBands.
  assert (H1 : (length (older ++ recent) <? period) = false)
    by (apply Nat.ltb_ge; rewrite length_app; lia).
  assert (H2 : (length recent <? period) = false)
    by (apply Nat.ltb_ge; lia).
  rewrite H1, H2.
  assert (Hslice : slice_last (older ++ recent) period = recent).
  { unfold slice_last. destruct period; [lia|].
    rewrite length_app, Hlen.
    replace (length older + S period - S period) with (length older) by lia.
    rewrite skipn_app, Nat.sub_diag, skipn_all. reflexivity. }
  assert (Hslice' : slice_last recent period = recent).
  { unfold slice_last. destruct period; [lia|].
    rewrite Hlen, Nat.sub_diag. reflexivity. }
  rewrite Hslice, Hslice'. reflexivity.
Qed.

End OutcomesMACD.

(** ** The scorer: which tag stands for which condition *)

Section ScorerTags.

Context {num : Type} {A : Arith num}.

Lemma scorer_tags (rsi : value num) (m : MacdResult num)
  (ema50 ema200 price : value num) :
  exists r,
    calculateBullMarketIndicator rsi (Some m) ema50 ema200 price = Return r
    /\ has_tag Tag.RsiHealthy (signals r)
       = ((toNumber rsi >=? #40) && (toNumber rsi <=? #70))%num
    /\ has_tag Tag.RsiOverbought (signals r)
       = (negb ((toNumber rsi >=? #40) && (toNumber rsi <=? #70))
          && (toNumber rsi >? #70))%num
    /\ has_tag Tag.RsiWeak (signals r)
       = (negb ((toNumber rsi >=? #40) && (toNumber rsi <=? #70))
          && negb (toNumber rsi >? #70))%num
    /\ has_tag Tag.MacdPositive (signals r) = (histogram m >? #0)%num
    /\ has_tag Tag.MacdNegative (signals r) = negb (histogram m >? #0)%num
    /\ has_tag Tag.GoldenCross (signals r)
       = (toNumber ema50 >? toNumber ema200)%num
    /\ has_tag Tag.DeathCross (signals r)
       = negb (toNumber ema50 >? toNumber ema200)%num
    /\ has_tag Tag.PriceAboveEma50 (signals r)
       = (toNumber price >? toNumber ema50)%num
    /\ has_tag Tag.PriceAboveEma200 (signals r)
       = (toNumber price >? toNumber ema200)%num
    /\ score r
       = ((if has_tag Tag.RsiHealthy (signals r) then 20 else 0)
          + (if has_tag Tag.MacdPositive (signals r) then 25 else 0)
          + (if has_tag Tag.GoldenCross (signals r) then 30 else 0)
          + (if has_tag Tag.PriceAboveEma50 (signals r) then 15 else 0)
          + (if has_tag Tag.PriceAboveEma200 (signals r) then 10 else 0))%Z.
Proof.
  unfold calculateBullMarketIndicator; cbn [read_histogram JS.bind].
  destruct (toNumber rsi >=? #40)%num, (toNumber rsi <=? #70)%num,
           (toNumber rsi >? #70)%num, (histogram m >? #0)%num,
           (toNumber ema50 >? toNumber ema200)%num,
           (toNumber price >? toNumber ema50)%num,
           (toNumber price >? toNumber ema200)%num;
    cbn [andb app determinePhase];
    (eexists; split; [reflexivity|]);
    cbn [signals score]; repeat split; reflexivity.
Qed.

(** X6.  Each tag of the signal list stands for one outcome of one test of
    the scorer: the healthy-RSI tag for 40 <= rsi <= 70, the overbought tag
    for rsi > 70 outside that band, the weak tag for the rest; the positive
    and negative MACD tags for histogram > 0 and its failure; Golden and
    Death Cross for ema50 > ema200 and its failure; the two price tags for
    price > ema50 and price > ema200.  Operands that are null or undefined
    are compared as ToNumber makes them. *)
Theorem scorer_tags_track_conditions (rsi : value num) (m : MacdResult num)
  (ema50 ema200 price : value num) :
  exists r,
    calculateBullMarketIndicator rsi (Some m) ema50 ema200 price = Return r
    /\ has_tag Tag.RsiHealthy (signals r)
       = ((toNumber rsi >=? #40) && (toNumber rsi <=? #70))%num
    /\ has_tag Tag.RsiOverbought (signals r)
       = (negb ((toNumber rsi >=? #40) && (toNumber rsi <=? #70))
          && (toNumber rsi >? #70))%num
    /\ has_tag Tag.RsiWeak (signals r)
       = (negb ((toNumber rsi >=? #40) && (toNumber rsi <=? #70))
          && negb (toNumber rsi >? #70))%num
    /\ has_tag Tag.MacdPositive (signals r) = (histogram m >? #0)%num
    /\ has_tag Tag.MacdNegative (signals r) = negb (histogram m >? #0)%num
    /\ has_tag Tag.GoldenCross (signals r)
       = (toNumber ema50 >? toNumber ema200)%num
    /\ has_tag Tag.DeathCross (signals r)
       = negb (toNumber ema50 >? toNumber ema200)%num
    /\ has_tag Tag.PriceAboveEma50 (signals r)
       = (toNumber price >? toNumber ema50)%num
    /\ has_tag Tag.PriceAboveEma200 (signals r)
       = (toNumber price >? toNumber ema200)%num.
Proof.
  destruct (scorer_tags rsi m ema50 ema200 price)
    as (r & Hr & H1 & H2 & H3 & H4 & H5 & H6 & H7 & H8 & H9 & _).
  exists r. repeat (split; [assumption|]). assumption.
Qed.

(** X7.  The strongest bull phase (score 80 or more) is out of reach without
    both the Golden Cross and a positive MACD histogram; the strongest bear
    phase (score below 20) means the RSI is not healthy, the MACD histogram is
    not positive, the cross is a Death Cross and at most one price test
    passed. *)
Theorem extreme_phases_need (rsi : value num) (m : MacdResult num)
  (ema50 ema200 price : value num) :
  exists r,
    calculateBullMarketIndicator rsi (Some m) ema50 ema200 price = Return r
    /\ ((80 <= score r)%Z ->
        phase r = Tag.StrongBull
        /\ has_tag Tag.GoldenCross (signals r) = true
        /\ has_tag Tag.MacdPositive (signals r) = true)
    /\ ((score r < 20)%Z ->
        phase r = Tag.StrongBear
        /\ has_tag Tag.RsiHealthy (signals r) = false
        /\ has_tag Tag.MacdNegative (signals r) = true
        /\ has_tag Tag.DeathCross (signals r) = true
        /\ (has_tag Tag.PriceAboveEma50 (signals r)
            && has_tag Tag.PriceAboveEma200 (signals r)) = false).
Proof.
  destruct (scorer_returns rsi m ema50 ema200 price)
    as (r & Hr & _ & Hphase & _).
  destruct (scorer_tags rsi m ema50 ema200 price)
    as (r' & Hr' & _ & _ & _ & Hpos & Hneg & Hgold & Hdeath & _ & _ & Hscore).
  rewrite Hr in Hr'. injection Hr' as <-.
  exists r. split; [exact Hr|].
  pose proof (determinePhase_thresholds (score r)) as Hth.
  rewrite <- Hphase in Hth. cbn [fst snd] in Hth.
  destruct Hth as (H80 & _ & _ & _ & H20).
  rewrite Hneg, Hdeath. rewrite <- Hpos, <- Hgold.
  destruct (has_tag Tag.RsiHealthy (signals r)),
           (has_tag Tag.MacdPositive (signals r)),
           (has_tag Tag.GoldenCross (signals r)),
           (has_tag Tag.PriceAboveEma50 (signals r)),
           (has_tag Tag.PriceAboveEma200 (signals r));
    split; intros Hs;
    try (exfalso; lia);
    try (destruct (H80 Hs) as [Hp _]);
    try (destruct (H20 Hs) as [Hp _]);
    repeat split; try reflexivity; exact Hp.
Qed.

End ScorerTags.

(** ** The aggregator: what a snapshot is made of *)

Section SnapshotParts.

Context {num : Type} {A : Arith num}.

(** What a returned snapshot was built from. *)
Lemma getAllIndicators_parts (klines : list (Candle num)) (now : Z)
  (s : Snapshot num) :
  getAllIndicators klines now = Return (Some s) ->
  exists m b e50 e200 bull,
    calculateMACD (map (@close num) klines) 12 26 9 = Return (Some m)
    /\ calculateBollingerBands (map (@close num) klines) 20 (#2)%num
       = Return (Some b)
    /\ calculateEMA (map (@close num) klines) 50 = Return e50
    /\ calculateEMA (map (@close num) klines) 200 = Return e200
    /\ calculateBullMarketIndicator
         (nullable (calculateRSI (map (@close num) klines) 14)) (Some m)
         (nullable e50) (nullable e200)
         (last_close (map (@close num) klines)) = Return bull
    /\ snap_currentPrice s = last_close (map (@close num) klines)
    /\ snap_timestamp s = now
    /\ snap_rsi s
       = {| rsi_value := calculateRSI (map (@close num) klines) 14;
            rsi_period := 14; rsi_timeframe := Tag.Daily |}
    /\ snap_macd s
       = {| macd_macd := macd m; macd_signal := signal m;
            macd_histogram := histogram m;
            macd_periods := Tag.Periods_12_26_9;
            macd_timeframe := Tag.Daily |}
    /\ bollinger_upper (snap_bollinger s) = upper b
    /\ bollinger_middle (snap_bollinger s) = middle b
    /\ bollinger_lower (snap_bollinger s) = lower b
    /\ bollinger_spread (snap_bollinger s) = (upper b - lower b)%num
    /\ bollinger_spreadCategory (snap_bollinger s)
       = (if (upper b - lower b >? #20000)%num then Tag.HighVolatility
          else if (upper b - lower b <? #10000)%num then Tag.LowConsolidation
          else Tag.NormalVolatility)
    /\ ema_ema50 (snap_ema s) = e50
    /\ ema_ema200 (snap_ema s) = e200
    /\ ema_trend (snap_ema s)
       = (if (toNumber (nullable e50) >? toNumber (nullable e200))%num
          then Tag.TrendBullish
          else if (toNumber (nullable e50) <? toNumber (nullable e200))%num
               then Tag.TrendBearish
               else Tag.TrendNeutral)
    /\ snap_bullMarket s = bull.
Proof.
  unfold getAllIndicators. intros Hs.
  destruct (calculateMACD _ 12 26 9) as [[m|]|e]; cbn [JS.bind] in Hs.
  - destruct (calculateBollingerBands _ _ _) as [[b|]|e];
      cbn [JS.bind] in Hs.
    + destruct (calculateEMA _ 50) as [e50|e]; cbn [JS.bind] in Hs;
        [|discriminate].
      destruct (calculateEMA _ 200) as [e200|e]; cbn [JS.bind] in Hs;
        [|discriminate].
      destruct (calculateBullMarketIndicator _ _ _ _ _) as [bull|e]
        eqn:Hbull; cbn [JS.bind read_bollinger read_macd] in Hs;
        [|discriminate].
      injection Hs as <-.
      exists m, b, e50, e200, bull.
      do 4 (split; [reflexivity|]). split; [exact Hbull|].
      repeat split; reflexivity.
    + destruct (calculateEMA _ 50) as [e50|e]; cbn [JS.bind] in Hs;
        [|discriminate].
      destruct (calculateEMA _ 200) as [e200|e]; cbn [JS.bind] in Hs;
        [|discriminate].
      destruct (calculateBullMarketIndicator _ _ _ _ _) as [bull|e];
        cbn [JS.bind read_bollinger] in Hs; discriminate.
    + discriminate.
  - destruct (calculateBollingerBands _ _ _) as [b|e];
      cbn [JS.bind] in Hs; [|discriminate].
    destruct (calculateEMA _ 50) as [e50|e]; cbn [JS.bind] in Hs;
      [|discriminate].
    destruct (calculateEMA _ 200) as [e200|e]; cbn [JS.bind] in Hs;
      [|discriminate].
    rewrite scorer_throws_on_null in Hs. discriminate.
  - discriminate.
Qed.

(** X8.  [getAllIndicators] throws a TypeError exactly on batches of fewer
    than 35 candles (the MACD result is null and the scorer reads its
    histogram), returns a snapshot exactly on batches of 35 or more, and
    never returns null. *)
Theorem getAllIndicators_outcomes (klines : list (Candle num)) (now : Z) :
  (getAllIndicators klines now = Throw TypeError <-> length klines < 35)
  /\ ((exists s, getAllIndicators klines now = Return (Some s))
      <-> 35 <= length klines)
  /\ getAllIndicators klines now <> Return None.
Proof.
  destruct (le_lt_dec 35 (length klines)) as [Hge|Hlt].
  - destruct (getAllIndicators_from_35 klines now Hge) as (s & Hs & _).
    rewrite Hs. split; [split; [discriminate|lia]|].
    split; [|discriminate]. split; [intros _; exact Hge|].
    intros _. exists s. reflexivity.
  - rewrite (getAllIndicators_below_35 klines now Hlt).
    split; [split; [intros _; exact Hlt|reflexivity]|].
    split; [|discriminate]. split; [|lia].
    intros (s & Hs). discriminate.
Qed.

(** X9.  A snapshot is consistent with itself: its bull-market record is the
    scorer's result on the snapshot's own RSI, MACD, EMAs and current price;
    its MACD histogram is MACD minus signal, its Bollinger spread upper
    minus lower; its periods and timeframes are the fixed ones. *)
Theorem snapshot_self_consistent (klines : list (Candle num)) (now : Z)
  (s : Snapshot num) :
  getAllIndicators klines now = Return (Some s) ->
  calculateBullMarketIndicator
    (nullable (rsi_value (snap_rsi s)))
    (Some {| macd := macd_macd (snap_macd s);
             signal := macd_signal (snap_macd s);
             histogram := macd_histogram (snap_macd s) |})
    (nullable (ema_ema50 (snap_ema s))) (nullable (ema_ema200 (snap_ema s)))
    (snap_currentPrice s)
  = Return (snap_bullMarket s)
  /\ macd_histogram (snap_macd s)
     = (macd_macd (snap_macd s) - macd_signal (snap_macd s))%num
  /\ bollinger_spread (snap_bollinger s)
     = (bollinger_upper (snap_bollinger s)
        - bollinger_lower (snap_bollinger s))%num
  /\ rsi_period (snap_rsi s) = 14
  /\ macd_periods (snap_macd s) = Tag.Periods_12_26_9.
Proof.
  intros Hs.
  destruct (getAllIndicators_parts klines now Hs)
    as (m & b & e50 & e200 & bull & Hm & Hb & H50 & H200 & Hbull & Hprice
        & _ & Hrsi & Hmacd & Hup & _ & Hlow & Hspread & _ & He50 & He200
        & _ & Hbm).
  rewrite Hrsi, Hmacd, Hprice, He50, He200, Hbm, Hspread, Hup, Hlow.
  cbn [rsi_value rsi_period macd_macd macd_signal macd_histogram
       macd_periods].
  assert (Hid : histogram m = (macd m - signal m)%num).
  { pose proof Hm as Hm'. unfold calculateMACD in Hm'.
    destruct (length _ <? 26 + 9); [discriminate|].
    destruct (reduce_add _) as [ft|]; [|discriminate].
    destruct (reduce_add _) as [st|]; [|discriminate].
    cbn [JS.bind] in Hm'.
    destruct (for_range _ _ _ _) as [[f sl] line].
    destruct (reduce_add _) as [sg|]; [|discriminate].
    cbn [JS.bind] in Hm'. injection Hm' as <-. reflexivity. }
  split; [|repeat split; try reflexivity; exact Hid].
  destruct m as [mm ms mh]. exact Hbull.
Qed.

(** X10.  The EMA trend label and the cross tag of a snapshot come from the
    same comparison: the trend is bullish exactly when the signals hold the
    Golden Cross tag; a bearish or a neutral trend both come with the Death
    Cross tag. *)
Theorem snapshot_trend_and_cross (klines : list (Candle num)) (now : Z)
  (s : Snapshot num) :
  getAllIndicators klines now = Return (Some s) ->
  String.eqb (ema_trend (snap_ema s)) Tag.TrendBullish
  = has_tag Tag.GoldenCross (signals (snap_bullMarket s))
  /\ (ema_trend (snap_ema s) = Tag.TrendBearish
      \/ ema_trend (snap_ema s) = Tag.TrendNeutral
      <-> has_tag Tag.DeathCross (signals (snap_bullMarket s)) = true).
Proof.
  intros Hs.
  destruct (getAllIndicators_parts klines now Hs)
    as (m & b & e50 & e200 & bull & _ & _ & _ & _ & Hbull & _
        & _ & _ & _ & _ & _ & _ & _ & _ & _ & _ & Htrend & Hbm).
  destruct (scorer_tags (nullable (calculateRSI (map (@close num) klines) 14))
              m (nullable e50) (nullable e200)
              (last_close (map (@close num) klines)))
    as (r & Hr & _ & _ & _ & _ & _ & Hgold & Hdeath & _).
  rewrite Hbull in Hr. injection Hr as <-.
  rewrite Hbm, Htrend, Hgold, Hdeath.
  destruct (toNumber (nullable e50) >? toNumber (nullable e200))%num.
  - split; [reflexivity|]. split; [|discriminate].
    intros [H|H]; discriminate.
  - destruct (toNumber (nullable e50) <? toNumber (nullable e200))%num;
      (split; [reflexivity|]); split; auto.
Qed.

End SnapshotParts.

(** ** Exact arithmetic: flat windows, shifts and falls *)

Section ExactMore.

Local Open Scope R_scope.

Lemma Rsum_const (c : R) (l : list R) :
  Forall (fun x => x = c) l -> Rsum l = INR (length l) * c.
Proof.
  intros Hall.
  assert (Hb : Forall (fun x => c <= x <= c) l).
  { eapply Forall_impl; [|exact Hall]. intros x ->. lra. }
  pose proof (Rsum_bounds Hb). lra.
Qed.

Lemma mean_const (c : R) (l : list R) :
  l <> [] -> Forall (fun x => x = c) l -> mean l = c.
Proof.
  intros Hne Hall.
  assert (Hb : Forall (fun x => c <= x <= c) l).
  { eapply Forall_impl; [|exact Hall]. intros x ->. lra. }
  pose proof (mean_bounds Hne Hb). unfold mean. lra.
Qed.

Lemma pop_variance_const (c : R) (l : list R) :
  l <> [] -> Forall (fun x => x = c) l -> pop_variance l = 0.
Proof.
  intros Hne Hall. unfold pop_variance.
  rewrite (mean_const Hne Hall).
  rewrite (@Rsum_const 0).
  - rewrite length_map. unfold Rdiv. lra.
  - apply Forall_map. eapply Forall_impl; [|exact Hall].
    intros x ->. cbn beta. lra.
Qed.

(** X11.  In exact arithmetic a flat window has bands of zero width: if the
    last [period] closes all equal [c], then upper, middle and lower all
    equal [c], whatever the multiplier. *)
Theorem bollinger_flat_window (closes : list R) (period : nat)
  (stdDev c : R) :
  (1 <= period <= length closes)%nat ->
  Forall (fun x => x = c) (last_n period closes) ->
  exists b,
    @calculateBollingerBands R real_arith closes period stdDev
    = Return (Some b)
    /\ upper b = c /\ middle b = c /\ lower b = c.
Proof.
  intros Hp Hflat.
  destruct (bollinger_exact closes stdDev Hp) as (b & Hb & Hmid & Hup & Hlow).
  exists b. split; [exact Hb|].
  assert (Hne : last_n period closes <> []).
  { apply length_nonempty. unfold last_n. rewrite length_skipn. lia. }
  rewrite (pop_variance_const Hne Hflat), sqrt_0 in Hup, Hlow.
  rewrite (mean_const Hne Hflat) in Hmid.
  repeat split; lra.
Qed.

(** *** RSI: shifts *)

Lemma get_shift (closes : list R) (c : R) (i : nat) :
  (i < length closes)%nat ->
  @get R real_arith (map (fun x => x + c) closes) i
  = @get R real_arith closes i + c.
Proof.
  intros Hi. unfold get.
  rewrite (nth_indep _ _ (0 + c)) by (rewrite length_map; exact Hi).
  apply (map_nth (fun x => x + c)).
Qed.

Lemma rsi_averages_shift (closes : list R) (period : nat) (c : R) :
  (period + 1 <= length closes)%nat ->
  @rsi_averages R real_arith (map (fun x => x + c) closes) period
  = @rsi_averages R real_arith closes period.
Proof.
  intros Hlen. unfold rsi_averages. rewrite length_map.
  rewrite (@for_range_ext _ 1 (period + 1)
             (rsi_seed_step (map (fun x => x + c) closes))
             (rsi_seed_step closes)).
  - destruct (for_range 1 (period + 1) (rsi_seed_step closes) _)
      as [gains losses].
    apply for_range_ext.
    intros i [g l] Hi. unfold rsi_smooth_step.
    rewrite !get_shift by lia. cbn [num_sub real_arith].
    replace (get closes i + c - (get closes (i - 1) + c))
      with (get closes i - get closes (i - 1)) by lra.
    reflexivity.
  - intros i [g l] Hi. unfold rsi_seed_step.
    rewrite !get_shift by lia. cbn [num_sub real_arith].
    replace (get closes i + c - (get closes (i - 1) + c))
      with (get closes i - get closes (i - 1)) by lra.
    reflexivity.
Qed.

(** X12.  In exact arithmetic the RSI depends on the price changes only:
    adding the same amount to every close leaves [calculateRSI]
    unchanged. *)
Theorem rsi_shift_invariant (closes : list R) (period : nat) (c : R) :
  @calculateRSI R real_arith (map (fun x => x + c) closes) period
  = @calculateRSI R real_arith closes period.
Proof.
  unfold calculateRSI. rewrite length_map.
  destruct (length closes <? period + 1)%nat eqn:Hguard; [reflexivity|].
  apply Nat.ltb_ge in Hguard.
  rewrite (@rsi_averages_shift closes period c Hguard). reflexivity.
Qed.

End ExactMore.

(** *** RSI: the floor *)

Section ExactRSIFloor.

Local Open Scope R_scope.

Lemma deltas_nonpos_upto_S (closes : list R) (j : nat) :
  (1 <= j)%nat ->
  deltas_nonpos_upto closes (S j) <->
  deltas_nonpos_upto closes j /\ nth j closes 0 <= nth (j - 1) closes 0.
Proof.
  intros Hj. unfold deltas_nonpos_upto. split.
  - intros H. split.
    + intros i Hi. apply H. lia.
    + apply H. lia.
  - intros [H Hlast] i Hi.
    destruct (Nat.eq_dec i j) as [->|Hne]; [exact Hlast|].
    apply H. lia.
Qed.

Lemma rsi_seed_step_gain (closes : list R) (i : nat) (acc : R * R) :
  (1 <= i)%nat -> seed_gain_inv closes i acc ->
  seed_gain_inv closes (S i) (@rsi_seed_step R real_arith closes i acc).
Proof.
  intros Hi (Hg & Hzero). destruct acc as [gains losses].
  unfold seed_gain_inv, rsi_seed_step, get. simpl in *.
  rewrite deltas_nonpos_upto_S by exact Hi.
  set (a := nth (i - 1) closes 0) in *. set (b := nth i closes 0) in *.
  destruct (Rlt_dec 0 (b - a)) as [Hup|Hdown]; cbn [fst snd].
  - split; [lra|]. split.
    + intros H. exfalso. lra.
    + intros [_ Hab]. exfalso. lra.
  - split; [lra|]. split.
    + intros H. split; [apply Hzero; exact H|lra].
    + intros [Hall _]. apply Hzero. exact Hall.
Qed.

Lemma rsi_smooth_step_gain (closes : list R) (period i : nat) (acc : R * R) :
  (1 <= period)%nat -> (1 <= i)%nat -> smooth_gain_inv closes period i acc ->
  smooth_gain_inv closes period (S i)
    (@rsi_smooth_step R real_arith closes period i acc).
Proof.
  intros Hp Hi (Hg & Hzero). destruct acc as [avgGain avgLoss].
  unfold smooth_gain_inv, rsi_smooth_step, get. rewrite real_of_nat.
  simpl in *.
  assert (Hn : 1 <= INR period) by (apply le_INR in Hp; simpl in Hp; lra).
  set (n := INR period) in *.
  set (a := nth (i - 1) closes 0) in *. set (b := nth i closes 0) in *.
  assert (Hmg : 0 <= avgGain * (n - 1)) by (apply Rmult_le_pos; lra).
  destruct (Rlt_dec 0 (b - a)) as [Hup|Hnup];
    (split; [apply div_nonneg; lra|]);
    intros H2; rewrite div_zero_iff by lra;
    rewrite deltas_nonpos_upto_S by exact Hi; fold a b;
    specialize (Hzero H2);
    assert (Hn2 : 2 <= n) by (apply le_INR in H2; simpl in H2; unfold n; lra).
  - split.
    + intros H. exfalso. nra.
    + intros [_ Hab]. lra.
  - split.
    + intros H. assert (avgGain = 0) by nra. split; [tauto|lra].
    + intros [Hall _]. apply Hzero in Hall. subst avgGain. lra.
Qed.

Lemma rsi_averages_gain (closes : list R) (period : nat) :
  (1 <= period)%nat -> (period + 1 <= length closes)%nat ->
  smooth_gain_inv closes period (length closes)
    (@rsi_averages R real_arith closes period).
Proof.
  intros Hp Hlen. unfold rsi_averages.
  assert (Hseed : seed_gain_inv closes (period + 1)
            (for_range 1 (period + 1) (@rsi_seed_step R real_arith closes)
               (0, 0))).
  { apply (for_range_ind (seed_gain_inv closes)); [lia| |].
    - unfold seed_gain_inv. cbn [fst snd].
      split; [lra|]. split; [|reflexivity]. intros _ i Hi. lia.
    - intros i acc Hi. apply rsi_seed_step_gain. lia. }
  simpl (num_of_Z 0).
  destruct (for_range 1 (period + 1) (@rsi_seed_step R real_arith closes)
              (0, 0)) as [gains losses].
  destruct Hseed as (Hg & Hzero). cbn [fst snd] in *.
  assert (Hn : 0 < INR period) by (apply lt_0_INR; lia).
  apply (for_range_ind (smooth_gain_inv closes period)); [lia| |].
  - unfold smooth_gain_inv. cbn [fst snd]. rewrite real_of_nat. simpl.
    split; [apply div_nonneg; assumption|].
    intros _. rewrite div_zero_iff by exact Hn. exact Hzero.
  - intros i acc Hi. apply rsi_smooth_step_gain; lia.
Qed.

(** X13.  In exact arithmetic, for a period of at least 2, the RSI is exactly
    0 if and only if no close is above its predecessor and at least one is
    below it.  (A sequence with no change at all has RSI 100, not 0: its
    average loss is zero.) *)
Theorem rsi_floor_exact (closes : list R) (period : nat) :
  (2 <= period)%nat -> (period + 1 <= length closes)%nat ->
  (@calculateRSI R real_arith closes period = Some 0
   <-> deltas_nonpos closes /\ ~ deltas_nonneg closes)
  /\ (deltas_nonpos closes -> deltas_nonneg closes ->
      @calculateRSI R real_arith closes period = Some 100).
Proof.
  intros Hp Hlen.
  pose proof (@rsi_averages_inv closes period ltac:(lia) Hlen) as Hloss.
  pose proof (@rsi_averages_gain closes period ltac:(lia) Hlen) as Hgain.
  unfold calculateRSI.
  assert (Hguard : (length closes <? period + 1)%nat = false)
    by (apply Nat.ltb_ge; lia).
  rewrite Hguard.
  destruct (@rsi_averages R real_arith closes period) as [avgGain avgLoss].
  destruct Hloss as (_ & Hl & Hlz). destruct Hgain as (Hg & Hgz).
  cbn [fst snd] in *. specialize (Hlz Hp). specialize (Hgz Hp).
  fold (deltas_nonneg closes) in Hlz. fold (deltas_nonpos closes) in Hgz.
  simpl. destruct (Req_dec_T avgLoss 0) as [Hz|Hnz].
  - split.
    + split.
      * intros H. injection H as H. lra.
      * intros [_ Hnot]. exfalso. apply Hnot, Hlz, Hz.
    + reflexivity.
  - assert (Hlpos : 0 < avgLoss) by lra.
    split.
    + split.
      * intros H. injection H as H.
        assert (Hq : avgGain / avgLoss = 0).
        { assert (Hd : 100 / (1 + avgGain / avgLoss) = 100) by lra.
          assert (Hq0 : 0 <= avgGain / avgLoss)
            by (apply div_nonneg; assumption).
          set (q := avgGain / avgLoss) in *.
          assert (Hm : 100 = 100 / (1 + q) * (1 + q)) by (field; lra).
          rewrite Hd in Hm. lra. }
        apply div_zero_iff in Hq; [|exact Hlpos].
        split; [apply Hgz; exact Hq|]. intros Hnn. apply Hnz, Hlz, Hnn.
      * intros [Hnp _]. apply Hgz in Hnp. subst avgGain.
        f_equal. unfold Rdiv. rewrite Rmult_0_l, Rplus_0_r.
        field.
    + intros _ Hnn. exfalso. apply Hnz, Hlz, Hnn.
Qed.

End ExactRSIFloor.

(** *** MACD on a flat series *)

Section ExactMACD.

Local Open Scope R_scope.

Lemma get_flat (closes : list R) (c : R) (i : nat) :
  Forall (fun x => x = c) closes -> (i < length closes)%nat ->
  @get R real_arith closes i = c.
Proof.
  intros Hall Hi. rewrite Forall_forall in Hall.
  apply Hall. unfold get. apply nth_In. exact Hi.
Qed.

Lemma seed_flat (closes : list R) (c : R) (n : nat) :
  (1 <= n <= length closes)%nat -> Forall (fun x => x = c) closes ->
  Rsum (slice_to closes n) / INR n = c.
Proof.
  intros Hn Hall.
  assert (Hflat : Forall (fun x => x = c) (slice_to closes n)).
  { unfold slice_to. rewrite Forall_forall in *. intros x Hx.
    apply Hall. rewrite <- (firstn_skipn n closes).
    apply in_or_app. now left. }
  rewrite (Rsum_const Hflat). unfold slice_to. rewrite length_firstn.
  replace (Nat.min n (length closes)) with n by lia.
  assert (0 < INR n) by (apply lt_0_INR; lia). field. lra.
Qed.

(** X14.  In exact arithmetic a flat series has no MACD: when every close
    equals the same price, the MACD line, the signal line and the histogram
    are all zero. *)
Theorem macd_of_flat_series (closes : list R) (fast slow sig : nat) (c : R) :
  (1 <= fast <= slow)%nat -> (1 <= sig)%nat ->
  (slow + sig <= length closes)%nat ->
  Forall (fun x => x = c) closes ->
  @calculateMACD R real_arith closes fast slow sig
  = Return (Some {| macd := 0; signal := 0; histogram := 0 |}).
Proof.
  intros Hfast Hsig Hlen Hall. unfold calculateMACD.
  assert (Hguard : (length closes <? slow + sig)%nat = false)
    by (apply Nat.ltb_ge; lia).
  rewrite Hguard.
  rewrite !real_reduce_add by (apply slice_to_nonempty; lia).
  cbn [JS.bind]. rewrite !real_of_nat.
  change (@num_div R real_arith) with Rdiv.
  rewrite (@seed_flat closes c fast), (@seed_flat closes c slow)
    by (assumption || lia).
  replace (Nat.max fast slow) with slow by lia.
  match goal with
  | |- context [for_range slow _ (macd_step closes ?fk ?sk) _] =>
      set (fastK := fk); set (slowK := sk)
  end.
  pose proof (@macd_line_length R real_arith closes fastK slowK slow
                (length closes) c c [] ltac:(lia)) as Hlen'.
  assert (Hinv : let acc := for_range slow (length closes)
                              (macd_step closes fastK slowK) (c, c, []) in
                 fst (fst acc) = c /\ snd (fst acc) = c
                 /\ Forall (fun x => x = 0) (snd acc)).
  { apply (for_range_ind
             (fun _ acc => fst (fst acc) = c /\ snd (fst acc) = c
                           /\ Forall (fun x => x = 0) (snd acc))).
    - lia.
    - cbn [fst snd]. repeat split. constructor.
    - intros i [[f s] line] Hi (Hf & Hs & Hline). cbn [fst snd] in *.
      subst f s. unfold macd_step.
      rewrite (@get_flat closes c i Hall) by lia.
      cbn [fst snd]. simpl.
      split; [ring|]. split; [ring|].
      apply Forall_app. split; [exact Hline|].
      constructor; [ring|constructor]. }
  destruct (for_range slow (length closes) (macd_step closes fastK slowK)
              (c, c, [])) as [[fastEMA slowEMA] macdLine].
  cbn [fst snd length] in Hlen', Hinv.
  destruct Hinv as (_ & _ & Hzero).
  assert (Hne : slice_to macdLine sig <> [])
    by (apply slice_to_nonempty; lia).
  rewrite (real_reduce_add Hne). cbn [JS.bind].
  assert (Hseed : Rsum (slice_to macdLine sig) / INR sig = 0)
    by (apply (@seed_flat macdLine 0 sig); [lia|exact Hzero]).
  rewrite Hseed.
  match goal with
  | |- context [for_range sig _ (ema_step macdLine ?k) _] =>
      assert (Hsignal : for_range sig (length macdLine)
                          (ema_step macdLine k) 0 = 0)
  end.
  { apply (for_range_ind (fun _ ema => ema = 0)); [lia|reflexivity|].
    intros i ema Hi ->. unfold ema_step.
    rewrite (@get_flat macdLine 0 i Hzero) by lia. simpl. ring. }
  rewrite Hsignal.
  rewrite (@get_flat macdLine 0 (length macdLine - 1) Hzero) by lia.
  simpl. do 3 f_equal. ring.
Qed.

End ExactMACD.

(** ** Exact arithmetic: the scorer and the snapshot *)

Section ExactSnapshot.

Local Open Scope R_scope.

(** X15.  In exact arithmetic, with numeric operands, the price tags follow
    the cross: under a Golden Cross a price above ema50 is above ema200 too,
    and under a Death Cross a price above ema200 is above ema50 too. *)
Theorem price_tags_follow_cross (rsi : value R) (m : MacdResult R)
  (ema50 ema200 price : R) :
  exists r,
    @calculateBullMarketIndicator R real_arith rsi (Some m) (Num ema50)
      (Num ema200) (Num price) = Return r
    /\ (has_tag Tag.GoldenCross (signals r) = true ->
        has_tag Tag.PriceAboveEma50 (signals r) = true ->
        has_tag Tag.PriceAboveEma200 (signals r) = true)
    /\ (has_tag Tag.DeathCross (signals r) = true ->
        has_tag Tag.PriceAboveEma200 (signals r) = true ->
        has_tag Tag.PriceAboveEma50 (signals r) = true).
Proof.
  destruct (@scorer_tags R real_arith rsi m (Num ema50) (Num ema200)
              (Num price))
    as (r & Hr & _ & _ & _ & _ & _ & Hgold & Hdeath & H50 & H200 & _).
  exists r. split; [exact Hr|].
  rewrite Hgold, Hdeath, H50, H200. cbn [toNumber]. simpl.
  destruct (Rlt_dec ema200 ema50), (Rlt_dec ema50 price),
           (Rlt_dec ema200 price); cbn [negb];
    split; intros; try reflexivity; try discriminate; exfalso; lra.
Qed.

Lemma fold_left_Rmin_pos (l : list R) (a : R) :
  0 < a -> Forall (fun x => 0 < x) l -> 0 < fold_left Rmin l a.
Proof.
  revert a. induction l as [|x l IH]; intros a Ha Hall; simpl.
  - exact Ha.
  - inversion Hall; subst. apply IH; [|assumption].
    apply Rmin_glb_lt; assumption.
Qed.

Lemma list_min_pos (l : list R) :
  l <> [] -> Forall (fun x => 0 < x) l -> 0 < list_min l.
Proof.
  destruct l as [|a l]; [congruence|]. intros _ Hall.
  inversion Hall; subst. simpl. apply fold_left_Rmin_pos; assumption.
Qed.

Lemma last_close_pos (closes : list R) :
  closes <> [] -> Forall (fun x => 0 < x) closes ->
  exists p, @last_close R real_arith closes = Num p /\ 0 < p.
Proof.
  intros Hne Hall. destruct closes as [|a l]; [congruence|].
  eexists. split; [reflexivity|].
  rewrite Forall_forall in Hall. apply Hall.
  unfold get. apply nth_In. simpl. lia.
Qed.

(** X16.  In exact arithmetic, a batch of 50 to 199 candles with positive
    closes always reads as a Golden Cross: the EMA 200 is null and compares
    as 0, so the snapshot has a bullish trend, the Golden Cross tag and the
    price-above-EMA200 tag, and a score of at least 40, whatever the
    prices do. *)
Theorem short_history_reads_as_golden_cross (klines : list (Candle R))
  (now : Z) :
  (50 <= length klines < 200)%nat ->
  Forall (fun k => 0 < close k) klines ->
  exists s,
    @getAllIndicators R real_arith klines now = Return (Some s)
    /\ ema_ema200 (snap_ema s) = None
    /\ ema_trend (snap_ema s) = Tag.TrendBullish
    /\ has_tag Tag.GoldenCross (signals (snap_bullMarket s)) = true
    /\ has_tag Tag.PriceAboveEma200 (signals (snap_bullMarket s)) = true
    /\ (40 <= score (snap_bullMarket s))%Z.
Proof.
  intros Hlen Hpos.
  destruct (@getAllIndicators_from_35 R real_arith klines now ltac:(lia))
    as (s & Hs & _ & _ & _ & H200).
  exists s. split; [exact Hs|].
  destruct (getAllIndicators_parts klines now Hs)
    as (m & b & e50 & e200 & bull & _ & _ & He50 & _ & Hbull & _
        & _ & _ & _ & _ & _ & _ & _ & _ & Hs50 & Hs200 & Htrend & Hbm).
  assert (Hnone : ema_ema200 (snap_ema s) = None) by (apply H200; lia).
  split; [exact Hnone|].
  assert (He200 : e200 = None) by (rewrite <- Hs200; exact Hnone).
  rewrite He200 in Hbull, Htrend. clear Hs200 Hnone He200.
  set (closes := map (@close R) klines) in *.
  assert (Hcpos : Forall (fun x => 0 < x) closes)
    by (unfold closes; apply Forall_map; exact Hpos).
  assert (Hne : closes <> []).
  { apply length_nonempty. unfold closes. rewrite length_map. lia. }
  destruct (@ema_within (list_min closes) (list_max closes) closes 50)
    as (e & He & Hrange).
  { unfold closes. rewrite length_map. lia. }
  { apply list_min_max_bounds. }
  pose proof (list_min_pos Hne Hcpos) as Hmin.
  rewrite He in He50. injection He50 as <-.
  destruct (last_close_pos Hne Hcpos) as (p & Hp & Hppos).
  rewrite Hp in Hbull.
  destruct (@scorer_tags R real_arith (nullable (calculateRSI closes 14)) m
              (nullable (Some e)) (nullable None) (Num p))
    as (r & Hr & _ & _ & _ & _ & _ & Hgold & _ & _ & Hp200 & Hscore).
  rewrite Hbull in Hr. injection Hr as <-.
  rewrite Hbm, Htrend.
  assert (Hcross : @num_lt R real_arith (toNumber (nullable None))
                     (toNumber (nullable (Some e))) = true).
  { cbn [nullable toNumber]. simpl. destruct (Rlt_dec 0 e); [reflexivity|].
    exfalso. lra. }
  assert (Hprice : @num_lt R real_arith (toNumber (nullable None))
                     (toNumber (Num p)) = true).
  { cbn [nullable toNumber]. simpl. destruct (Rlt_dec 0 p); [reflexivity|].
    exfalso. lra. }
  rewrite Hcross in *. rewrite Hprice in Hp200.
  split; [reflexivity|]. split; [exact Hgold|]. split; [exact Hp200|].
  rewrite Hscore, Hgold, Hp200.
  destruct (has_tag Tag.RsiHealthy (signals bull)),
           (has_tag Tag.MacdPositive (signals bull)),
           (has_tag Tag.PriceAboveEma50 (signals bull)); lia.
Qed.

(** X17.  In exact arithmetic every snapshot keeps the ranges of its parts:
    the RSI lies in [0,100], the Bollinger bands are ordered and their spread
    is not negative, and each EMA that is present lies between the least and
    the greatest close of the batch. *)
Theorem snapshot_ranges_exact (klines : list (Candle R)) (now : Z)
  (s : Snapshot R) :
  @getAllIndicators R real_arith klines now = Return (Some s) ->
  (exists v, rsi_value (snap_rsi s) = Some v /\ 0 <= v <= 100)
  /\ bollinger_lower (snap_bollinger s) <= bollinger_middle (snap_bollinger s)
     <= bollinger_upper (snap_bollinger s)
  /\ 0 <= bollinger_spread (snap_bollinger s)
  /\ (forall e, ema_ema50 (snap_ema s) = Some e ->
        list_min (map (@close R) klines) <= e
        <= list_max (map (@close R) klines))
  /\ (forall e, ema_ema200 (snap_ema s) = Some e ->
        list_min (map (@close R) klines) <= e
        <= list_max (map (@close R) klines)).
Proof.
  intros Hs.
  assert (Hlen : (35 <= length klines)%nat).
  { destruct (le_lt_dec 35 (length klines)) as [H|H]; [exact H|].
    rewrite (getAllIndicators_below_35 klines now H) in Hs. discriminate. }
  destruct (getAllIndicators_parts klines now Hs)
    as (m & b & e50 & e200 & bull & _ & Hb & He50 & He200 & _ & _
        & _ & Hrsi & _ & Hup & Hmid & Hlow & Hspread & _ & Hs50 & Hs200
        & _ & _).
  set (closes := map (@close R) klines) in *.
  assert (Hclen : length closes = length klines)
    by (unfold closes; apply length_map).
  split.
  { destruct (@rsi_exact closes 14 ltac:(lia) ltac:(lia))
      as (v & Hv & Hrange & _).
    exists v. rewrite Hrsi. cbn [rsi_value]. split; assumption. }
  destruct (@bollinger_exact closes 20 2 ltac:(lia))
    as (b' & Hb' & Hmid' & Hup' & Hlow').
  change (@num_of_Z R real_arith 2) with 2 in Hb.
  rewrite Hb' in Hb. injection Hb as <-.
  pose proof (sqrt_pos (pop_variance (last_n 20 closes))) as Hsd.
  rewrite Hup, Hmid, Hlow, Hspread. cbn [num_sub real_arith].
  split; [lra|]. split; [lra|].
  assert (Hema : forall n e,
             @calculateEMA R real_arith closes n = Return (Some e) ->
             (1 <= n)%nat ->
             list_min closes <= e <= list_max closes).
  { intros n e He Hn.
    destruct (le_lt_dec n (length closes)) as [Hle|Hlt].
    - destruct (@ema_within (list_min closes) (list_max closes) closes n
                  ltac:(lia) (list_min_max_bounds closes))
        as (e' & He' & Hrange).
      rewrite He' in He. injection He as <-. exact Hrange.
    - rewrite calculateEMA_absent in He by exact Hlt. discriminate. }
  split; intros e He.
  - rewrite Hs50 in He. rewrite He in He50.
    apply (Hema 50%nat e He50). lia.
  - rewrite Hs200 in He. rewrite He in He200.
    apply (Hema 200%nat e He200). lia.
Qed.

End ExactSnapshot.

(** ** The rendering layer *)

Section Cards.

Context {num : Type} {A : Arith num}.

(** X18.  The bull card shortens the phase text to its first two words and
    shows its last word as the emoji, so the strength of the phase is told by
    the emoji alone.  For every result of the scorer this gives "Bull Market"
    from score 60 on and "Bear Market" below 40, but for the neutral phase
    (40 to 59) it gives "Neutre /", the first two words of
    "Neutre / Consolidation"; the colour class is the phase colour. *)
Theorem bull_card_labels (rsi : value num) (m : MacdResult num)
  (ema50 ema200 price : value num) :
  exists r,
    calculateBullMarketIndicator rsi (Some m) ema50 ema200 price = Return r
    /\ bc_score (createBullCard r) = score r
    /\ bc_colorClass (createBullCard r) = phaseColor r
    /\ ((80 <= score r)%Z ->
        bc_phase (createBullCard r) = "Bull Market"%string
        /\ bc_emoji (createBullCard r) = "🚀"%string)
    /\ ((60 <= score r < 80)%Z ->
        bc_phase (createBullCard r) = "Bull Market"%string
        /\ bc_emoji (createBullCard r) = "📈"%string)
    /\ ((40 <= score r < 60)%Z ->
        bc_phase (createBullCard r) = "Neutre /"%string
        /\ bc_emoji (createBullCard r) = "⚖️"%string)
    /\ ((20 <= score r < 40)%Z ->
        bc_phase (createBullCard r) = "Bear Market"%string
        /\ bc_emoji (createBullCard r) = "📉"%string)
    /\ ((score r < 20)%Z ->
        bc_phase (createBullCard r) = "Bear Market"%string
        /\ bc_emoji (createBullCard r) = "🔻"%string).
Proof.
  destruct (scorer_returns rsi m ema50 ema200 price)
    as (r & Hr & _ & Hphase & _).
  exists r. split; [exact Hr|].
  split; [reflexivity|]. split; [reflexivity|].
  unfold createBullCard. cbn [bc_phase bc_emoji].
  unfold determinePhase in Hphase.
  destruct (score r >=? 80)%Z eqn:H80; [|destruct (score r >=? 60)%Z eqn:H60;
    [|destruct (score r >=? 40)%Z eqn:H40;
      [|destruct (score r >=? 20)%Z eqn:H20]]];
    injection Hphase as -> _;
    repeat split; intros; try reflexivity; exfalso; lia.
Qed.

(** X19.  The cards of a snapshot agree with its signal tags: the Trend card
    reads "Bullish" with class "up" exactly when the signals hold the Golden
    Cross tag, and "Bearish" with class "down" otherwise, also when the EMA
    trend is neutral; the MACD card reads "Positive" exactly when they hold
    the positive-MACD tag; the Bollinger card shows the first word of the
    spread category. *)
Theorem cards_agree_with_signals (klines : list (Candle num)) (now : Z)
  (s : Snapshot num) :
  getAllIndicators klines now = Return (Some s) ->
  trendCard s
  = (if has_tag Tag.GoldenCross (signals (snap_bullMarket s))
     then ("Bullish", "up") else ("Bearish", "down"))%string
  /\ (ema_trend (snap_ema s) = Tag.TrendNeutral ->
      trendCard s = ("Bearish", "down")%string)
  /\ macdCardStatus s
     = (if has_tag Tag.MacdPositive (signals (snap_bullMarket s))
        then ("Positive", "up") else ("Negative", "down"))%string
  /\ (bollingerCardValue s = "Élevé"%string
      /\ bollinger_spreadCategory (snap_bollinger s) = Tag.HighVolatility
      \/ bollingerCardValue s = "Faible"%string
         /\ bollinger_spreadCategory (snap_bollinger s) = Tag.LowConsolidation
      \/ bollingerCardValue s = "Moyen"%string
         /\ bollinger_spreadCategory (snap_bollinger s)
            = Tag.NormalVolatility).
Proof.
  intros Hs.
  destruct (getAllIndicators_parts klines now Hs)
    as (m & b & e50 & e200 & bull & _ & _ & _ & _ & Hbull & _
        & _ & _ & Hmacd & _ & _ & _ & _ & Hcat & _ & _ & Htrend & Hbm).
  destruct (scorer_tags (nullable (calculateRSI (map (@close num) klines) 14))
              m (nullable e50) (nullable e200)
              (last_close (map (@close num) klines)))
    as (r & Hr & _ & _ & _ & Hpos & _ & Hgold & _).
  rewrite Hbull in Hr. injection Hr as <-.
  unfold trendCard, macdCardStatus, bollingerCardValue.
  rewrite Hbm, Htrend, Hgold, Hpos, Hmacd, Hcat.
  cbn [macd_histogram].
  split; [|split; [|split]].
  - destruct (toNumber (nullable e50) >? toNumber (nullable e200))%num;
      [reflexivity|].
    destruct (toNumber (nullable e50) <? toNumber (nullable e200))%num;
      reflexivity.
  - destruct (toNumber (nullable e50) >? toNumber (nullable e200))%num;
      [discriminate|].
    destruct (toNumber (nullable e50) <? toNumber (nullable e200))%num;
      reflexivity.
  - destruct (histogram m >? #0)%num; reflexivity.
  - destruct (upper b - lower b >? #20000)%num;
      [left; split; reflexivity|].
    destruct (upper b - lower b <? #10000)%num;
      [right; left; split; reflexivity|right; right; split; reflexivity].
Qed.

End Cards.

Section CardsBinary64.

Lemma score_in_range (z : Z) :
  (0 <= z <= 100)%Z -> In z (map Z.of_nat (seq 0 101)).
Proof.
  intros Hz. apply in_map_iff. exists (Z.to_nat z).
  split; [lia|]. apply in_seq. lia.
Qed.

(** X20.  In binary64 the ring of the bull card never leaves its track: for
    every score from 0 to 100 the dash offset 628 - score / 100 * 628 lies in
    [0, 628], it is 628 at score 0 and 0 at score 100, and a higher score
    always gives a strictly smaller offset. *)
Theorem dash_offset_in_binary64 (b1 b2 : BullMarket) :
  (0 <= score b1 <= 100)%Z -> (0 <= score b2 <= 100)%Z ->
  PrimFloat.leb 0 (bc_dashOffset (@createBullCard float float_arith b1))
  = true
  /\ PrimFloat.leb (bc_dashOffset (@createBullCard float float_arith b1)) 628
     = true
  /\ (score b1 = 0%Z ->
      bc_dashOffset (@createBullCard float float_arith b1) = 628%float)
  /\ (score b1 = 100%Z ->
      bc_dashOffset (@createBullCard float float_arith b1) = 0%float)
  /\ ((score b1 < score b2)%Z ->
      PrimFloat.ltb (bc_dashOffset (@createBullCard float float_arith b2))
        (bc_dashOffset (@createBullCard float float_arith b1)) = true).
Proof.
  intros H1 H2. unfold createBullCard. cbn [bc_dashOffset].
  set (off := fun z : Z =>
                (#628 - num_of_Z z / #100 * #628)%num : float).
  change (PrimFloat.leb 0 (off (score b1)) = true
          /\ PrimFloat.leb (off (score b1)) 628 = true
          /\ (score b1 = 0%Z -> off (score b1) = 628%float)
          /\ (score b1 = 100%Z -> off (score b1) = 0%float)
          /\ ((score b1 < score b2)%Z ->
              PrimFloat.ltb (off (score b2)) (off (score b1)) = true)).
  assert (Hbounds : forallb (fun z => PrimFloat.leb 0 (off z)
                                      && PrimFloat.leb (off z) 628)
                      (map Z.of_nat (seq 0 101)) = true)
    by (vm_compute; reflexivity).
  assert (Hmono : forallb
                    (fun z1 => forallb
                       (fun z2 => negb (z1 <? z2)%Z
                                  || PrimFloat.ltb (off z2) (off z1))
                       (map Z.of_nat (seq 0 101)))
                    (map Z.of_nat (seq 0 101)) = true)
    by (vm_compute; reflexivity).
  rewrite forallb_forall in Hbounds, Hmono.
  pose proof (Hbounds _ (score_in_range H1)) as Hb.
  apply andb_true_iff in Hb. destruct Hb as [Hlo Hhi].
  split; [exact Hlo|]. split; [exact Hhi|].
  split; [intros ->; vm_compute; reflexivity|].
  split; [intros ->; vm_compute; reflexivity|].
  intros Hlt.
  pose proof (Hmono _ (score_in_range H1)) as Hrow.
  rewrite forallb_forall in Hrow.
  pose proof (Hrow _ (score_in_range H2)) as Hcell.
  apply orb_true_iff in Hcell. destruct Hcell as [Hcell|Hcell];
    [|exact Hcell].
  apply negb_true_iff, Z.ltb_ge in Hcell. lia.
Qed.

End CardsBinary64.

Section CardsExact.

Local Open Scope R_scope.

(** X21.  In exact arithmetic the RSI card and the scorer draw their lines
    apart: both call an RSI above 70 overbought, but the card calls it
    oversold only below 30 while the scorer calls it weak below 40, so an RSI
    from 30 up to 40 is "Neutral" on the card and tagged weak in the
    signals; a healthy RSI is always "Neutral" on the card. *)
Theorem rsi_card_and_rsi_tag (v : R) (m : MacdResult R)
  (ema50 ema200 price : value R) :
  exists r,
    @calculateBullMarketIndicator R real_arith (Num v) (Some m) ema50 ema200
      price = Return r
    /\ (@getRsiStatus R real_arith (Num v) = "Overbought"%string
        <-> has_tag Tag.RsiOverbought (signals r) = true)
    /\ (@getRsiStatus R real_arith (Num v) = "Oversold"%string
        <-> v < 30)
    /\ (has_tag Tag.RsiWeak (signals r) = true <-> v < 40)
    /\ (has_tag Tag.RsiHealthy (signals r) = true ->
        @getRsiStatus R real_arith (Num v) = "Neutral"%string)
    /\ (30 <= v < 40 ->
        @getRsiStatus R real_arith (Num v) = "Neutral"%string
        /\ has_tag Tag.RsiWeak (signals r) = true).
Proof.
  destruct (@scorer_tags R real_arith (Num v) m ema50 ema200 price)
    as (r & Hr & Hhealthy & Hover & Hweak & _).
  exists r. split; [exact Hr|].
  rewrite Hhealthy, Hover, Hweak. unfold getRsiStatus.
  cbn [toNumber]. simpl.
  destruct (Rle_dec 40 v), (Rle_dec v 70), (Rlt_dec 70 v), (Rlt_dec v 30);
    cbn [andb negb]; try (exfalso; lra);
    repeat split; intros; try reflexivity; try discriminate; try lra.
Qed.

End CardsExact.

(** ** The further properties on sample inputs *)

(** Appending the close 4 to the closes 1, 2, 3 with period 2, in
    binary64. *)
Lemma calculateEMA_append_on_rise :
  exists e,
    @calculateEMA float float_arith [1; 2; 3]%float 2 = Return (Some e)
    /\ @calculateEMA float float_arith ([1; 2; 3] ++ [4])%float 2
       = Return (Some (4%float * (#2 / (##2 + #1))
                       + e * (#1 - #2 / (##2 + #1)))%num).
Proof.
  eexists. split; [vm_compute; reflexivity|].
  apply (@calculateEMA_append float float_arith [1; 2; 3]%float 2 4%float).
  vm_compute. reflexivity.
Defined.

(** Thirty-five rising closes with the default periods, in binary64. *)
Lemma calculateMACD_outcomes_on_35_closes :
  26 + 9 <= length (map (@close float) (rising_batch 35)) /\
  ((1 <= 12 < length (map (@close float) (rising_batch 35))
    /\ 1 <= 26 /\ 1 <= 9) ->
   exists r, calculateMACD (map (@close float) (rising_batch 35)) 12 26 9
             = Return (Some r))
  /\ (~ (1 <= 12 < length (map (@close float) (rising_batch 35))
         /\ 1 <= 26 /\ 1 <= 9) ->
      calculateMACD (map (@close float) (rising_batch 35)) 12 26 9
      = Throw TypeError).
Proof.
  assert (Hlen : 26 + 9 <= length (map (@close float) (rising_batch 35)))
    by (vm_compute; lia).
  split; [exact Hlen|].
  apply (@calculateMACD_outcomes float float_arith
           (map (@close float) (rising_batch 35)) 12 26 9 Hlen).
Defined.

(** A window 1, 1, 4 after two older closes, in binary64. *)
Lemma calculateBollingerBands_window_on_sample :
  (1 <= 3 /\ length one_one_four = 3) /\
  @calculateBollingerBands float float_arith
    ([7; 9]%float ++ one_one_four) 3 2%float
  = @calculateBollingerBands float float_arith one_one_four 3 2%float.
Proof.
  split; [split; [lia|reflexivity]|].
  apply (@calculateBollingerBands_window float float_arith [7; 9]%float
           one_one_four 3 2%float); [lia|reflexivity].
Defined.

(** Fifty rising candles, in binary64. *)
Lemma snapshot_self_consistent_at_50 :
  exists s,
    getAllIndicators (rising_batch 50) 0 = Return (Some s)
    /\ calculateBullMarketIndicator
         (nullable (rsi_value (snap_rsi s)))
         (Some {| macd := macd_macd (snap_macd s);
                  signal := macd_signal (snap_macd s);
                  histogram := macd_histogram (snap_macd s) |})
         (nullable (ema_ema50 (snap_ema s)))
         (nullable (ema_ema200 (snap_ema s)))
         (snap_currentPrice s)
       = Return (snap_bullMarket s)
    /\ macd_histogram (snap_macd s)
       = (macd_macd (snap_macd s) - macd_signal (snap_macd s))%num
    /\ bollinger_spread (snap_bollinger s)
       = (bollinger_upper (snap_bollinger s)
          - bollinger_lower (snap_bollinger s))%num
    /\ rsi_period (snap_rsi s) = 14
    /\ macd_periods (snap_macd s) = Tag.Periods_12_26_9.
Proof.
  eexists. split; [vm_compute; reflexivity|].
  apply (@snapshot_self_consistent float float_arith (rising_batch 50) 0).
  vm_compute. reflexivity.
Defined.

Lemma snapshot_trend_and_cross_at_50 :
  exists s,
    getAllIndicators (rising_batch 50) 0 = Return (Some s)
    /\ String.eqb (ema_trend (snap_ema s)) Tag.TrendBullish
       = has_tag Tag.GoldenCross (signals (snap_bullMarket s))
    /\ (ema_trend (snap_ema s) = Tag.TrendBearish
        \/ ema_trend (snap_ema s) = Tag.TrendNeutral
        <-> has_tag Tag.DeathCross (signals (snap_bullMarket s)) = true).
Proof.
  eexists. split; [vm_compute; reflexivity|].
  apply (@snapshot_trend_and_cross float float_arith (rising_batch 50) 0).
  vm_compute. reflexivity.
Defined.

Lemma cards_agree_with_signals_at_50 :
  exists s,
    getAllIndicators (rising_batch 50) 0 = Return (Some s)
    /\ trendCard s
       = (if has_tag Tag.GoldenCross (signals (snap_bullMarket s))
          then ("Bullish", "up") else ("Bearish", "down"))%string
    /\ (ema_trend (snap_ema s) = Tag.TrendNeutral ->
        trendCard s = ("Bearish", "down")%string)
    /\ macdCardStatus s
       = (if has_tag Tag.MacdPositive (signals (snap_bullMarket s))
          then ("Positive", "up") else ("Negative", "down"))%string
    /\ (bollingerCardValue s = "Élevé"%string
        /\ bollinger_spreadCategory (snap_bollinger s) = Tag.HighVolatility
        \/ bollingerCardValue s = "Faible"%string
           /\ bollinger_spreadCategory (snap_bollinger s)
              = Tag.LowConsolidation
        \/ bollingerCardValue s = "Moyen"%string
           /\ bollinger_spreadCategory (snap_bollinger s)
              = Tag.NormalVolatility).
Proof.
  eexists. split; [vm_compute; reflexivity|].
  apply (@cards_agree_with_signals float float_arith (rising_batch 50) 0).
  vm_compute. reflexivity.
Defined.

(** Scores 40 and 80, in binary64. *)
Lemma dash_offset_in_binary64_at_40_and_80 :
  ((0 <= score (bull_with_score 40) <= 100)%Z
   /\ (0 <= score (bull_with_score 80) <= 100)%Z) /\
  PrimFloat.leb 0
    (bc_dashOffset (@createBullCard float float_arith (bull_with_score 40)))
  = true
  /\ PrimFloat.leb
       (bc_dashOffset (@createBullCard float float_arith (bull_with_score 40)))
       628 = true
  /\ (score (bull_with_score 40) = 0%Z ->
      bc_dashOffset (@createBullCard float float_arith (bull_with_score 40))
      = 628%float)
  /\ (score (bull_with_score 40) = 100%Z ->
      bc_dashOffset (@createBullCard float float_arith (bull_with_score 40))
      = 0%float)
  /\ ((score (bull_with_score 40) < score (bull_with_score 80))%Z ->
      PrimFloat.ltb
        (bc_dashOffset
           (@createBullCard float float_arith (bull_with_score 80)))
        (bc_dashOffset
           (@createBullCard float float_arith (bull_with_score 40))) = true).
Proof.
  split; [simpl; lia|].
  apply (@dash_offset_in_binary64 (bull_with_score 40) (bull_with_score 80));
    simpl; lia.
Defined.

(** Three closes at 5 with period 3 and multiplier 2. *)
Lemma bollinger_flat_window_on_sample :
  ((1 <= 3 <= length flat_exact)
   /\ Forall (fun x => x = 5%R) (last_n 3 flat_exact)) /\
  exists b,
    @calculateBollingerBands R real_arith flat_exact 3 2%R = Return (Some b)
    /\ upper b = 5%R /\ middle b = 5%R /\ lower b = 5%R.
Proof.
  assert (Hflat : Forall (fun x => x = 5%R) (last_n 3 flat_exact))
    by (simpl; repeat constructor).
  split; [split; [simpl; lia|exact Hflat]|].
  apply (@bollinger_flat_window flat_exact 3 2%R 5%R); [simpl; lia|].
  exact Hflat.
Defined.

(** The closes 3, 2, 1 with period 2. *)
Lemma rsi_floor_exact_on_fall :
  (2 <= 2 /\ 2 + 1 <= length falling_exact) /\
  (@calculateRSI R real_arith falling_exact 2 = Some 0%R
   <-> deltas_nonpos falling_exact /\ ~ deltas_nonneg falling_exact)
  /\ (deltas_nonpos falling_exact -> deltas_nonneg falling_exact ->
      @calculateRSI R real_arith falling_exact 2 = Some 100%R).
Proof.
  split; [simpl; lia|].
  apply (@rsi_floor_exact falling_exact 2); simpl; lia.
Defined.

(** Three closes at 5 with periods 1, 2 and 1. *)
Lemma macd_of_flat_series_on_sample :
  (1 <= 1 <= 2 /\ 1 <= 1 /\ 2 + 1 <= length flat_exact
   /\ Forall (fun x => x = 5%R) flat_exact) /\
  @calculateMACD R real_arith flat_exact 1 2 1
  = Return (Some {| macd := 0%R; signal := 0%R; histogram := 0%R |}).
Proof.
  assert (Hflat : Forall (fun x => x = 5%R) flat_exact)
    by (repeat constructor).
  split; [repeat split; try exact Hflat; simpl; lia|].
  apply (@macd_of_flat_series flat_exact 1 2 1 5%R);
    [lia | lia | simpl; lia | exact Hflat].
Defined.

Lemma steady_batch_positive (n : nat) :
  Forall (fun k => (0 < close k)%R) (steady_batch_exact n).
Proof.
  apply Forall_forall. intros k Hk.
  apply repeat_spec in Hk. subst k. simpl. lra.
Qed.

(** Fifty candles closing at 1. *)
Lemma short_history_reads_as_golden_cross_on_steady_batch :
  (50 <= length (steady_batch_exact 50) < 200
   /\ Forall (fun k => (0 < close k)%R) (steady_batch_exact 50)) /\
  exists s,
    @getAllIndicators R real_arith (steady_batch_exact 50) 0
    = Return (Some s)
    /\ ema_ema200 (snap_ema s) = None
    /\ ema_trend (snap_ema s) = Tag.TrendBullish
    /\ has_tag Tag.GoldenCross (signals (snap_bullMarket s)) = true
    /\ has_tag Tag.PriceAboveEma200 (signals (snap_bullMarket s)) = true
    /\ (40 <= score (snap_bullMarket s))%Z.
Proof.
  assert (Hlen : 50 <= length (steady_batch_exact 50) < 200)
    by (unfold steady_batch_exact; rewrite repeat_length; lia).
  split; [split; [exact Hlen|apply steady_batch_positive]|].
  apply (@short_history_reads_as_golden_cross (steady_batch_exact 50) 0);
    [exact Hlen|apply steady_batch_positive].
Defined.

Lemma snapshot_ranges_exact_on_steady_batch :
  exists s,
    @getAllIndicators R real_arith (steady_batch_exact 50) 0
    = Return (Some s)
    /\ (exists v, rsi_value (snap_rsi s) = Some v /\ (0 <= v <= 100)%R)
    /\ (bollinger_lower (snap_bollinger s)
        <= bollinger_middle (snap_bollinger s)
        <= bollinger_upper (snap_bollinger s))%R
    /\ (0 <= bollinger_spread (snap_bollinger s))%R
    /\ (forall e, ema_ema50 (snap_ema s) = Some e ->
          (list_min (map (@close R) (steady_batch_exact 50)) <= e
           <= list_max (map (@close R) (steady_batch_exact 50)))%R)
    /\ (forall e, ema_ema200 (snap_ema s) = Some e ->
          (list_min (map (@close R) (steady_batch_exact 50)) <= e
           <= list_max (map (@close R) (steady_batch_exact 50)))%R).
Proof.
  assert (Hlen : 35 <= length (steady_batch_exact 50))
    by (unfold steady_batch_exact; rewrite repeat_length; lia).
  destruct (@getAllIndicators_from_35 R real_arith (steady_batch_exact 50) 0
              Hlen) as (s & Hs & _).
  exists s. split; [exact Hs|].
  apply (@snapshot_ranges_exact (steady_batch_exact 50) 0 s Hs).
Defined.

(** * Absence, defined results and throws of the calculators *)

Section Lookback.

Context {num : Type} {A : Arith num}.

Lemma calculateEMA_null_iff (closes : list num) (period : nat) :
  calculateEMA closes period = Return None <-> length closes < period.
Proof.
  split; [|apply calculateEMA_absent].
  intros Hnull.
  destruct (le_lt_dec period (length closes)) as [Hle|Hlt]; [|exact Hlt].
  exfalso. unfold calculateEMA in Hnull.
  apply Nat.ltb_ge in Hle. rewrite Hle in Hnull.
  destruct (reduce_add (slice_to closes period)); discriminate.
Qed.

Lemma calculateMACD_null_iff (closes : list num) (fast slow sig : nat) :
  calculateMACD closes fast slow sig = Return None
  <-> length closes < slow + sig.
Proof.
  split; [|apply calculateMACD_absent].
  intros Hnull.
  destruct (le_lt_dec (slow + sig) (length closes)) as [Hle|Hlt];
    [|exact Hlt].
  exfalso. unfold calculateMACD in Hnull.
  apply Nat.ltb_ge in Hle. rewrite Hle in Hnull.
  destruct (reduce_add (slice_to closes fast)); [|discriminate].
  destruct (reduce_add (slice_to closes slow)); [|discriminate].
  cbn [JS.bind] in Hnull.
  destruct (for_range _ _ _ _) as [[fastEMA slowEMA] macdLine].
  destruct (reduce_add (slice_to macdLine sig)); discriminate.
Qed.

Lemma calculateBollingerBands_null_iff (closes : list num) (period : nat)
  (stdDev : num) :
  calculateBollingerBands closes period stdDev = Return None
  <-> length closes < period.
Proof.
  split; [|apply calculateBollingerBands_absent].
  intros Hnull.
  destruct (le_lt_dec period (length closes)) as [Hle|Hlt]; [|exact Hlt].
  exfalso. unfold calculateBollingerBands in Hnull.
  apply Nat.ltb_ge in Hle. rewrite Hle in Hnull.
  destruct (reduce_add (slice_last closes period)); [|discriminate].
  cbn [JS.bind] in Hnull.
  destruct (reduce_add _); discriminate.
Qed.

Lemma calculateBollingerBands_whole_array (closes : list num) (stdDev : num) :
  closes <> [] ->
  exists b, calculateBollingerBands closes 0 stdDev = Return (Some b).
Proof.
  intros Hne. destruct closes as [|c rest]; [congruence|].
  unfold calculateBollingerBands.
  cbn [length Nat.ltb Nat.leb slice_last reduce_add JS.bind].
  match goal with
  | |- context [reduce_add (map ?f ?l)] =>
      destruct (reduce_add_returns (a := map f l)) as [sq ->];
        [discriminate|]
  end.
  cbn [JS.bind]. eexists. reflexivity.
Qed.

(** C7, as amended.  Each calculator returns null exactly when the input is
    shorter than its lookback, whatever the periods: period + 1 closes for
    the RSI, period for the EMA, slowPeriod + signalPeriod for the MACD,
    period for the Bollinger Bands.  At or above the lookback it returns a
    defined result when the periods are usable: always for the RSI; for a
    period of at least 1 for the EMA; for periods of at least 1 and a fast
    period below the number of closes for the MACD; for a period of at
    least 1, or any non-empty array, for the Bollinger Bands.  In the
    remaining cases, all at or above the lookback, an empty array is reduced
    and the call throws a TypeError. *)
Theorem null_exactly_below_lookback (closes : list num)
  (rsiPeriod emaPeriod fastPeriod slowPeriod signalPeriod bbPeriod : nat)
  (stdDev : num) :
  (* calculateRSI *)
  (calculateRSI closes rsiPeriod = None <-> length closes < rsiPeriod + 1)
  /\ (rsiPeriod + 1 <= length closes ->
      exists v, calculateRSI closes rsiPeriod = Some v)
  (* calculateEMA *)
  /\ (calculateEMA closes emaPeriod = Return None
      <-> length closes < emaPeriod)
  /\ (emaPeriod <= length closes -> 1 <= emaPeriod ->
      exists v, calculateEMA closes emaPeriod = Return (Some v))
  /\ (emaPeriod = 0 -> calculateEMA closes emaPeriod = Throw TypeError)
  (* calculateMACD *)
  /\ (calculateMACD closes fastPeriod slowPeriod signalPeriod = Return None
      <-> length closes < slowPeriod + signalPeriod)
  /\ (slowPeriod + signalPeriod <= length closes ->
      1 <= fastPeriod < length closes -> 1 <= slowPeriod ->
      1 <= signalPeriod ->
      exists r, calculateMACD closes fastPeriod slowPeriod signalPeriod
                = Return (Some r))
  /\ (slowPeriod + signalPeriod <= length closes ->
      fastPeriod = 0 \/ slowPeriod = 0 \/ signalPeriod = 0
      \/ length closes <= fastPeriod ->
      calculateMACD closes fastPeriod slowPeriod signalPeriod
      = Throw TypeError)
  (* calculateBollingerBands *)
  /\ (calculateBollingerBands closes bbPeriod stdDev = Return None
      <-> length closes < bbPeriod)
  /\ (bbPeriod <= length closes -> 1 <= bbPeriod \/ closes <> [] ->
      exists b, calculateBollingerBands closes bbPeriod stdDev
                = Return (Some b))
  /\ (bbPeriod = 0 -> closes = [] ->
      calculateBollingerBands closes bbPeriod stdDev = Throw TypeError).
Proof.
  split.
  { split; [|apply calculateRSI_absent].
    intros Hnull.
    destruct (le_lt_dec (rsiPeriod + 1) (length closes)) as [Hle|Hlt];
      [|exact Hlt].
    destruct (@calculateRSI_present _ _ closes rsiPeriod Hle) as (v & Hv).
    rewrite Hv in Hnull. discriminate. }
  split; [apply calculateRSI_present|].
  split; [apply calculateEMA_null_iff|].
  split; [intros Hle Hpos; apply calculateEMA_present; lia|].
  split; [intros ->; reflexivity|].
  split; [apply calculateMACD_null_iff|].
  split; [intros Hle Hfast Hslow Hsig; apply calculateMACD_returns;
          assumption|].
  split; [apply calculateMACD_throws|].
  split; [apply calculateBollingerBands_null_iff|].
  split.
  - intros Hle [Hpos|Hne].
    + apply calculateBollingerBands_present. lia.
    + destruct bbPeriod as [|p].
      * apply calculateBollingerBands_whole_array. exact Hne.
      * apply calculateBollingerBands_present. lia.
  - intros -> ->. reflexivity.
Qed.

End Lookback.

(** C7 fails as stated: at or above the lookback a calculator can throw
    instead of returning a defined result.  In binary64, [calculateEMA] on
    three closes with period 0, [calculateMACD] on thirty-five closes with
    the positive periods 35, 26 and 9, and [calculateBollingerBands] on the
    empty array with period 0 all throw a TypeError, and none of the three
    inputs is shorter than its lookback. *)
Lemma calculators_throw_at_the_lookback :
  (@calculateEMA float float_arith dip_and_rise 0 = Throw TypeError
   /\ 0 <= length dip_and_rise)
  /\ (@calculateMACD float float_arith
        (map (@close float) (rising_batch 35)) 35 26 9 = Throw TypeError
      /\ 26 + 9 <= length (map (@close float) (rising_batch 35)))
  /\ (@calculateBollingerBands float float_arith [] 0 2%float
      = Throw TypeError
      /\ 0 <= length (@nil float)).
Proof.
  repeat split; try (vm_compute; reflexivity); vm_compute; lia.
Qed.
